(** * gif-to-ascii: the converter, the cache build and the playback loop

    A shallow embedding of [main.py].  [convert_image_to_ascii] turns one
    image file into a grid of ramp characters, [main] converts every frame
    of the animation once and then replays the cached frames on request.

    Conventions of the embedding:
    - [int(x)] and [astype(int)] truncate toward zero.  The definitions
      named after the source read Python floats as exact rationals ([Q]);
      what is proved over them (bounds, shapes, the loop's invariant) does
      not rest on rounding.  The definitions ending in [_fl] round after
      every float operation, and those ending in [_binary64] do so to
      binary64, as the source does; they are used where the value of an
      index matters.
    - Python [int] is [Z] (sizes, indices) or [N] (parsed counts).
    - [str] is [string]; a character is a code point below 256.
    - a raised exception is a value of [exn], a [while] loop runs on fuel.
    - [int(s)] of a run of digits is its decimal value; the interpreter's
      limit on the length of such a run is left out. *)

From Stdlib Require Import ZArith NArith QArith Qround Qpower List Bool.
From Stdlib Require Import Lia Lqa.
From Stdlib Require Import Strings.String Strings.Ascii Strings.Byte.
From Stdlib Require Import Sorting.Permutation Sorting.Sorted.
Import ListNotations.

Local Open Scope Z_scope.

(** ** Exceptions and outcomes *)

(** The exceptions the program meets.  [KeyboardInterrupt] and
    [CancelledError] (of asyncio) are the two that do not derive from
    Python's [Exception]. *)
Inductive exn : Type :=
| ZeroDivisionError
| ValueError
| IndexError
| OSError
| EOFError
| KeyboardInterrupt
| CancelledError.

(** [isinstance(e, Exception)] *)
Definition is_Exception (e : exn) : bool :=
  match e with
  | KeyboardInterrupt | CancelledError => false
  | _ => true
  end.

(** What a call does: it returns, it raises, or its loop is still running
    when the fuel is spent. *)
Inductive outcome (A : Type) : Type :=
| Returns (a : A)
| Raises (e : exn)
| OutOfFuel.

Arguments Returns {A} a.
Arguments Raises {A} e.
Arguments OutOfFuel {A}.

Definition bind {A B : Type} (m : outcome A) (k : A -> outcome B) : outcome B :=
  match m with
  | Returns a => k a
  | Raises e => Raises e
  | OutOfFuel => OutOfFuel
  end.

Notation "x <- m ;; k" := (bind m (fun x => k))
  (at level 61, m at next level, right associativity).

(** ** Python primitives *)

Module Py.

(** [int(x)] for a float [x]: the integer part, rounding toward zero. *)
Definition int (x : Q) : Z :=
  if Qnum x <? 0 then Qceiling x else Qfloor x.

(** [s[i]] for a string: a negative index counts from the end, an index
    outside the string raises [IndexError]. *)
Definition getitem (s : string) (i : Z) : outcome ascii :=
  let n := Z.of_nat (String.length s) in
  let j := if i <? 0 then i + n else i in
  if (j <? 0) || (n <=? j) then Raises IndexError
  else match String.get (Z.to_nat j) s with
       | Some c => Returns c
       | None => Raises IndexError
       end.

(** [str.isspace] on code points below 256. *)
Definition isspace (c : ascii) : bool :=
  let n := nat_of_ascii c in
  ((9 <=? n) && (n <=? 13) || (28 <=? n) && (n <=? 32)
   || (n =? 133) || (n =? 160))%nat.

Fixpoint lstrip (s : string) : string :=
  match s with
  | EmptyString => EmptyString
  | String c s' => if isspace c then lstrip s' else s
  end.

Fixpoint rstrip (s : string) : string :=
  match s with
  | EmptyString => EmptyString
  | String c s' =>
      match rstrip s' with
      | EmptyString => if isspace c then EmptyString else String c EmptyString
      | t => String c t
      end
  end.

(** [s.strip()] *)
Definition strip (s : string) : string := rstrip (lstrip s).

(** [str.lower] on one code point below 256: A-Z and the accented capitals
    of Latin-1 move 32 places up. *)
Definition lower_char (c : ascii) : ascii :=
  let n := nat_of_ascii c in
  if ((65 <=? n) && (n <=? 90)
      || (192 <=? n) && (n <=? 222) && negb (n =? 215))%nat
  then ascii_of_nat (n + 32) else c.

(** [s.lower()] *)
Fixpoint lower (s : string) : string :=
  match s with
  | EmptyString => EmptyString
  | String c s' => String (lower_char c) (lower s')
  end.

(** The class [\d]: among code points below 256 only 0-9 are decimal
    digits. *)
Definition isdigit (c : ascii) : bool :=
  let n := nat_of_ascii c in ((48 <=? n) && (n <=? 57))%nat.

(** The longest prefix of digits. *)
Fixpoint digit_run (s : string) : string :=
  match s with
  | EmptyString => EmptyString
  | String c s' => if isdigit c then String c (digit_run s') else EmptyString
  end.

(** [re.search(r"(\d+)", s)] followed by [.group(0)] on a match: the
    leftmost, longest run of digits. *)
Fixpoint re_search_digits (s : string) : option string :=
  match s with
  | EmptyString => None
  | String c s' =>
      if isdigit c then Some (String c (digit_run s')) else re_search_digits s'
  end.

Fixpoint int_of_digits_from (acc : N) (s : string) : N :=
  match s with
  | EmptyString => acc
  | String c s' => int_of_digits_from (10 * acc + (N_of_ascii c - 48))%N s'
  end.

(** [int(s)] for a string of decimal digits. *)
Definition int_of_str (s : string) : N := int_of_digits_from 0%N s.

End Py.

(** ** The converter *)

(** An AsciiFrame: the rows of one converted image. *)
Definition ascii_frame : Type := list string.

(** A sampler stands for Pillow's resampling of one image: [px w h r c] is
    the luminance, an unsigned byte, at row [r] and column [c] of
    [img.resize((w, h), Image.LANCZOS).convert("L")]. *)
Definition sampler : Type := Z -> Z -> nat -> nat -> byte.

(** An opened image.  [Image.open] reads the header only, which gives the
    size [(width, height)]; the pixel data is decoded when first used, and
    [pixels] is [None] when that decoding fails (a truncated file). *)
Record image : Type := {
  size : Z * Z;
  pixels : option sampler
}.

(** What [Image.open(filepath)] does with a path: it raises, or it gives an
    image. *)
Inductive file : Type :=
| Unreadable
| Readable (img : image).

(** [int(ar * target_width * 0.5)] *)
Definition scaled_height (ar : Q) (target_width : Z) : Z :=
  Py.int (ar * inject_Z target_width * (1 # 2)).

(** The loop of lines 38-40, entered with the current [target_width] and
    [new_height]; it gives back both as they stand at the exit. *)
Fixpoint fit_loop (fuel : nat) (ar : Q) (terminal_max_height : Z)
         (target_width new_height : Z) {struct fuel} : outcome (Z * Z) :=
  if new_height >? terminal_max_height then
    match fuel with
    | O => OutOfFuel
    | S fuel' =>
        let target_width := target_width - 1 in
        let new_height := scaled_height ar target_width in
        fit_loop fuel' ar terminal_max_height target_width new_height
    end
  else Returns (target_width, new_height).

(** Lines 34-48: the aspect ratio, the candidate height, the loop and the
    clamp to one row.  Returns the final [(target_width, new_height)]. *)
Definition aspect_fit (fuel : nat) (img : image)
           (target_width terminal_max_height : Z) : outcome (Z * Z) :=
  let '(original_width, original_height) := size img in
  if original_width =? 0 then Raises ZeroDivisionError else
  let ar := (inject_Z original_height / inject_Z original_width)%Q in
  let new_height := scaled_height ar target_width in
  fitted <- fit_loop fuel ar terminal_max_height target_width new_height ;;
  let '(target_width, new_height) := fitted in
  let new_height := if new_height <=? 0 then 1 else new_height in
  Returns (target_width, new_height).

(** [(pixel / 255 * (num_chars - 1)).astype(int)] for one pixel. *)
Definition scale_pixel (num_chars : Z) (pixel : Z) : Z :=
  Py.int (inject_Z pixel / 255 * inject_Z (num_chars - 1)).

(** The array of a resized image: [new_height] rows of [target_width]
    bytes. *)
Definition pixel_values (px : sampler) (target_width new_height : Z)
  : list (list Z) :=
  map (fun r =>
         map (fun c => Z.of_N (Byte.to_N (px target_width new_height r c)))
             (seq 0 (Z.to_nat target_width)))
      (seq 0 (Z.to_nat new_height)).

(** [np.array(img.resize((w, h), Image.LANCZOS).convert("L"))], lines 52-56.
    [Image.resize] first loads the pixel data, which raises [OSError] when
    the data does not decode, and then refuses a size with a side below 1
    ([ValueError]: height and width must be > 0). *)
Definition resize_to_L (img : image) (target_width new_height : Z)
  : outcome (list (list Z)) :=
  match pixels img with
  | None => Raises OSError
  | Some px =>
      if (target_width <? 1) || (new_height <? 1) then Raises ValueError
      else Returns (pixel_values px target_width new_height)
  end.

(** ["".join(characters[pixel] for pixel in row)] *)
Fixpoint join_row (characters : string) (row : list Z) : outcome string :=
  match row with
  | [] => Returns EmptyString
  | pixel :: row' =>
      c <- Py.getitem characters pixel ;;
      s <- join_row characters row' ;;
      Returns (String c s)
  end.

(** The list comprehension over the rows. *)
Fixpoint join_rows (characters : string) (rows : list (list Z))
  : outcome ascii_frame :=
  match rows with
  | [] => Returns []
  | row :: rows' =>
      line <- join_row characters row ;;
      rest <- join_rows characters rows' ;;
      Returns (line :: rest)
  end.

(** [convert_image_to_ascii].  Only the failure of [Image.open] is caught
    and turned into [None]. *)
Definition convert_image_to_ascii (fuel : nat) (filepath : file)
           (characters : string) (target_width terminal_max_height : Z)
  : outcome (option ascii_frame) :=
  match filepath with
  | Unreadable => Returns None
  | Readable img =>
      fitted <- aspect_fit fuel img target_width terminal_max_height ;;
      let '(target_width, new_height) := fitted in
      pixel_values <- resize_to_L img target_width new_height ;;
      let num_chars := Z.of_nat (String.length characters) in
      let scaled_pixels := map (map (scale_pixel num_chars)) pixel_values in
      ascii_art <- join_rows characters scaled_pixels ;;
      Returns (Some ascii_art)
  end.

(** ** The cache build *)

(** [if ascii_frame:]: [None] and an empty list are falsy. *)
Definition truthy (ascii_frame : option ascii_frame) : bool :=
  match ascii_frame with
  | Some (_ :: _) => true
  | _ => false
  end.

(** The loop of lines 161-173 over the frames still to convert; a frame
    whose conversion is falsy is skipped (with a warning in the log).
    Nothing catches an exception of the conversion here. *)
Fixpoint build_frames (fuel : nat) (image_paths : list file) (charset : string)
         (ascii_width ascii_height_limit : Z)
         (all_ascii_frames : list ascii_frame) : outcome (list ascii_frame) :=
  match image_paths with
  | [] => Returns all_ascii_frames
  | image_path :: rest =>
      ascii_frame <- convert_image_to_ascii fuel image_path charset
                       ascii_width ascii_height_limit ;;
      match ascii_frame with
      | Some frame =>
          if truthy ascii_frame
          then build_frames fuel rest charset ascii_width ascii_height_limit
                            (all_ascii_frames ++ [frame])
          else build_frames fuel rest charset ascii_width ascii_height_limit
                            all_ascii_frames
      | None =>
          build_frames fuel rest charset ascii_width ascii_height_limit
                       all_ascii_frames
      end
  end.

Definition build_cache (fuel : nat) (image_paths : list file) (charset : string)
           (ascii_width ascii_height_limit : Z) : outcome (list ascii_frame) :=
  build_frames fuel image_paths charset ascii_width ascii_height_limit [].

(** The ramp of [main], darkest first. *)
Definition charset : string := "@%#*+=-:. ".

(** ** The playback loop *)

(** Where the command loop stands between two commands.  Playing is the
    inside of the two [for] loops; [Crashed e] is an exception that leaves
    [main]. *)
Inductive control : Type :=
| AwaitingInput
| Stopped
| Crashed (e : exn).

(** How a block of the loop ends. *)
Inductive completion (A : Type) : Type :=
| Normal (a : A)
| Abrupt (e : exn).

Arguments Normal {A} a.
Arguments Abrupt {A} e.

(** What [input("> ")] does: it gives a line or it raises. *)
Inductive input_event : Type :=
| Line (s : string)
| InputRaises (e : exn).

(** A block acts on the frames shown so far, oldest first. *)
Definition action (A : Type) : Type :=
  list ascii_frame -> completion A * list ascii_frame.

Definition ret {A : Type} (a : A) : action A := fun shown => (Normal a, shown).

Definition seq_ {A B : Type} (m : action A) (k : A -> action B) : action B :=
  fun shown =>
    match m shown with
    | (Normal a, shown') => k a shown'
    | (Abrupt e, shown') => (Abrupt e, shown')
    end.

Notation "m >>= k" := (seq_ m k) (at level 58, left associativity).
Notation "m >> k" := (seq_ m (fun _ => k)) (at level 58, left associativity).

Section Playback.

(** [signals n] is the exception, if any, that reaches the loop once [n]
    frames have been shown: at the wait after frame [n], or as the next
    frame is about to be written. *)
Variable signals : nat -> option exn.

Definition checkpoint : action unit :=
  fun shown =>
    match signals (List.length shown) with
    | Some e => (Abrupt e, shown)
    | None => (Normal tt, shown)
    end.

(** [await print_ascii_art(frame_art)]: one render call. *)
Definition print_ascii_art (art_lines : ascii_frame) : action unit :=
  checkpoint >> (fun shown => (Normal tt, shown ++ [art_lines])).

(** [await asyncio.sleep(0.04)] *)
Definition sleep : action unit := checkpoint.

(** [for frame_art in all_ascii_frames: ...] *)
Fixpoint for_frames (all_ascii_frames : list ascii_frame) : action unit :=
  match all_ascii_frames with
  | [] => ret tt
  | frame_art :: rest =>
      print_ascii_art frame_art >> sleep >> for_frames rest
  end.

(** [for _ in range(n): body] *)
Fixpoint for_range (n : nat) (body : action unit) : action unit :=
  match n with
  | O => ret tt
  | S n' => body >> for_range n' body
  end.

(** Lines 189-192. *)
Definition parse_repeat (user_input : string) : N :=
  match Py.re_search_digits user_input with
  | Some digits => Py.int_of_str digits
  | None => 1%N
  end.

(** The body of the [try]; it gives [true] on [break]. *)
Definition try_body (all_ascii_frames : list ascii_frame) (ev : input_event)
  : action bool :=
  match ev with
  | InputRaises e => fun shown => (Abrupt e, shown)
  | Line raw =>
      let user_input := Py.lower (Py.strip raw) in
      if (user_input =? "q")%string then ret true
      else
        let times_to_repeat := parse_repeat user_input in
        for_range (N.to_nat times_to_repeat) (for_frames all_ascii_frames)
        >> ret false
  end.

(** One turn of [while True]: the [try] with its two handlers. *)
Definition turn (all_ascii_frames : list ascii_frame) (ev : input_event)
           (shown : list ascii_frame) : control * list ascii_frame :=
  match try_body all_ascii_frames ev shown with
  | (Normal true, shown') => (Stopped, shown')
  | (Normal false, shown') => (AwaitingInput, shown')
  | (Abrupt KeyboardInterrupt, shown') => (Stopped, shown')
  | (Abrupt e, shown') =>
      if is_Exception e then (Stopped, shown') else (Crashed e, shown')
  end.

(** The command loop over the inputs still to come; with none left it
    waits at the prompt. *)
Fixpoint command_loop (all_ascii_frames : list ascii_frame)
         (inputs : list input_event) (shown : list ascii_frame)
  : control * list ascii_frame :=
  match inputs with
  | [] => (AwaitingInput, shown)
  | ev :: rest =>
      match turn all_ascii_frames ev shown with
      | (AwaitingInput, shown') => command_loop all_ascii_frames rest shown'
      | halted => halted
      end
  end.

(** [main] from the extracted frame files on; [columns] and [lines] are
    the terminal size. *)
Definition main (fuel : nat) (columns lines : Z) (image_paths : list file)
           (inputs : list input_event)
  : outcome (control * list ascii_frame) :=
  let ascii_width := columns - 5 in
  let ascii_height_limit := lines - 5 in
  match image_paths with
  | [] => Returns (Stopped, [])
  | _ =>
      all_ascii_frames <- build_cache fuel image_paths charset
                            ascii_width ascii_height_limit ;;
      match all_ascii_frames with
      | [] => Returns (Stopped, [])
      | _ =>
          match command_loop all_ascii_frames inputs [] with
          | (Crashed e, _) => Raises e
          | halted => Returns halted
          end
      end
  end.

End Playback.

(** ** Vocabulary of the statements *)


(** [P] holds of every character of every row of the frame. *)
Definition all_chars (P : ascii -> Prop) (frame : ascii_frame) : Prop :=
  forall line, In line frame -> forall c, In c (list_ascii_of_string line) -> P c.

(** An image all of whose samples are the byte [b], at every size. *)
Definition uniform (img : image) (b : byte) : Prop :=
  forall px, pixels img = Some px -> forall w h r c, px w h r c = b.

(** Every character of [s] is a digit. *)
Definition all_digits (s : string) : Prop :=
  forall c, In c (list_ascii_of_string s) -> Py.isdigit c = true.

(** ** Sample inputs *)

(** A 10 x 10 image, solid black. *)
Definition square_image : image :=
  {| size := (10, 10); pixels := Some (fun _ _ _ _ => x00) |}.

(** A 1 x 1000 image, solid black. *)
Definition tall_image : image :=
  {| size := (1, 1000); pixels := Some (fun _ _ _ _ => x00) |}.

(** A 10 x 10 image whose header reads and whose pixel data does not. *)
Definition truncated_image : image :=
  {| size := (10, 10); pixels := None |}.

(** A cache of two 2 x 2 frames. *)
Definition two_frames : list ascii_frame :=
  [["@@"; "@@"]; ["  "; "  "]]%string.

(** The user interrupts once [j] frames have been shown; [asyncio.run]
    hands the interrupt to [main] as a cancellation. *)
Definition cancelled_after (j : nat) : nat -> option exn :=
  fun n => if (n =? j)%nat then Some CancelledError else None.

(** Every character of [s] is white space. *)
Definition all_space (s : string) : Prop :=
  forall c, In c (list_ascii_of_string s) -> Py.isspace c = true.

(** No character of [s] is a digit. *)
Definition no_digit (s : string) : Prop :=
  forall c, In c (list_ascii_of_string s) -> Py.isdigit c = false.

(** [s] is empty or begins with a character that [P] rejects. *)
Definition head_not (P : ascii -> bool) (s : string) : Prop :=
  match s with
  | EmptyString => True
  | String c _ => P c = false
  end.

(** [s] is empty or ends with a character that [P] rejects. *)
Definition last_not (P : ascii -> bool) (s : string) : Prop :=
  forall t c, s = (t ++ String c EmptyString)%string -> P c = false.

(** The frames one line asks for: the cache, as many times as the count of
    the line. *)
Definition frames_asked (cache : list ascii_frame) (raw : string)
  : list ascii_frame :=
  List.concat
    (repeat cache (N.to_nat (parse_repeat (Py.lower (Py.strip raw))))).

(** The line is not the quit command. *)
Definition not_quit (raw : string) : Prop :=
  (Py.lower (Py.strip raw) =? "q")%string = false.

(** No exception arrives, at any time. *)
Definition quiet : nat -> option exn := fun _ => None.

(** ** The frame extraction *)

(** [p.startswith(prefix)] *)
Definition startswith (p prefix : string) : bool := String.prefix prefix p.

(** [s.endswith("/")] *)
Fixpoint ends_with_sep (s : string) : bool :=
  match s with
  | EmptyString => false
  | String c EmptyString => (c =? "/")%char
  | String _ s' => ends_with_sep s'
  end.

(** [os.path.join(a, p)] on a POSIX system. *)
Definition path_join (a p : string) : string :=
  if startswith p "/" then p
  else if (a =? "")%string || ends_with_sep a then (a ++ p)%string
  else (a ++ "/" ++ p)%string.

(** The sort key of line 115, [int(re.search(r"(\d+)", x).group(0))]; it is
    [None] where the search finds no digit and [.group] raises
    [AttributeError]. *)
Definition frame_number (x : string) : option N :=
  option_map Py.int_of_str (Py.re_search_digits x).

(** [list.sort(key=...)] first computes the key of every element, in
    order. *)
Fixpoint keyed (files : list string) : option (list (N * string)) :=
  match files with
  | [] => Some []
  | x :: rest =>
      match frame_number x with
      | None => None
      | Some k =>
          match keyed rest with
          | None => None
          | Some l => Some ((k, x) :: l)
          end
      end
  end.

(** [list.sort] is stable, which fixes its result; an insertion sort that
    puts an element before the first one whose key is not smaller gives
    it. *)
Fixpoint insert_by_key (kx : N * string) (sorted : list (N * string))
  : list (N * string) :=
  match sorted with
  | [] => [kx]
  | ky :: rest =>
      if (fst kx <=? fst ky)%N then kx :: sorted
      else ky :: insert_by_key kx rest
  end.

Definition sort_by_key (l : list (N * string)) : list (N * string) :=
  fold_right insert_by_key [] l.

(** [convert_gif_to_image_frames] after ffmpeg has run: [returncode] is its
    exit status and [listing] is [os.listdir(output_dir)].  The result is
    [None] when the sort key raises. *)
Definition convert_gif_to_image_frames (returncode : Z) (listing : list string)
           (output_dir frame_prefix : string) : option (list string) :=
  if returncode =? 0 then
    let files :=
      map (path_join output_dir)
          (filter (fun p => startswith p frame_prefix) listing) in
    option_map (fun l => map snd (sort_by_key l)) (keyed files)
  else Some [].

(** ** The renderer's text *)

Fixpoint spaces (n : nat) : string :=
  match n with
  | O => EmptyString
  | S n' => String " " (spaces n')
  end.

(** [line.center(width)]: the odd space goes to the left when both the
    margin and the width are odd, to the right otherwise. *)
Definition center (line : string) (width : nat) : string :=
  let len := String.length line in
  if (width <=? len)%nat then line
  else
    let marg := (width - len)%nat in
    let left :=
      (marg / 2 + (if Nat.odd marg && Nat.odd width then 1 else 0))%nat in
    (spaces left ++ line ++ spaces (marg - left))%string.

(** The text that [print_ascii_art] writes after clearing the screen, lines
    134-136. *)
Definition gen_art (art_lines : ascii_frame) (center_lines : bool)
           (terminal_width : nat) : string :=
  String.concat (String "010" EmptyString)
    (map (fun line => if center_lines then center line terminal_width
                      else line)
         art_lines).

(** Two files are in the order of their frame numbers. *)
Definition number_le (x y : string) : Prop :=
  match frame_number x, frame_number y with
  | Some a, Some b => (a <= b)%N
  | _, _ => False
  end.

(** ** Binary64 arithmetic *)

(** The floor of the binary logarithm of a positive rational. *)
Definition ilog2 (x : Q) : Z :=
  let l := Z.log2 (Qnum x) - Z.log2 (Zpos (Qden x)) in
  if Qle_bool (2 ^ l)%Q x then l else l - 1.

(** The nearest integer, the even one of the two at a tie. *)
Definition round_half_even (x : Q) : Z :=
  let f := Qfloor x in
  match (x - inject_Z f ?= 1 # 2)%Q with
  | Lt => f
  | Gt => f + 1
  | Eq => if Z.even f then f else f + 1
  end.

(** The nearest number with a significand of 53 bits to a positive
    rational. *)
Definition round_53_bits (x : Q) : Q :=
  let e := ilog2 x - 52 in
  (inject_Z (round_half_even (x / 2 ^ e)) * 2 ^ e)%Q.

(** The binary64 value of a rational: rounding to nearest, ties to even, as
    every float operation of the source does with its exact result.  The
    range of the exponent is left out: the magnitudes met here lie far
    inside it. *)
Definition binary64 (x : Q) : Q :=
  match Qnum x with
  | Z0 => 0%Q
  | Zpos _ => round_53_bits x
  | Zneg _ => (- round_53_bits (- x))%Q
  end.

(** ** The converter in binary64 *)

Section FloatArithmetic.

(** The rounding that follows every float operation. *)
Variable fl : Q -> Q.

(** [int(ar * target_width * 0.5)], each product rounded. *)
Definition scaled_height_fl (ar : Q) (target_width : Z) : Z :=
  Py.int (fl (fl (ar * fl (inject_Z target_width)) * (1 # 2))%Q).

(** The loop of lines 38-40 with the rounded height. *)
Fixpoint fit_loop_fl (fuel : nat) (ar : Q) (terminal_max_height : Z)
         (target_width new_height : Z) {struct fuel} : outcome (Z * Z) :=
  if new_height >? terminal_max_height then
    match fuel with
    | O => OutOfFuel
    | S fuel' =>
        let target_width := target_width - 1 in
        let new_height := scaled_height_fl ar target_width in
        fit_loop_fl fuel' ar terminal_max_height target_width new_height
    end
  else Returns (target_width, new_height).

(** Lines 34-48 with the rounded quotient and products. *)
Definition aspect_fit_fl (fuel : nat) (img : image)
           (target_width terminal_max_height : Z) : outcome (Z * Z) :=
  let '(original_width, original_height) := size img in
  if original_width =? 0 then Raises ZeroDivisionError else
  let ar := fl (inject_Z original_height / inject_Z original_width)%Q in
  let new_height := scaled_height_fl ar target_width in
  fitted <- fit_loop_fl fuel ar terminal_max_height target_width new_height ;;
  let '(target_width, new_height) := fitted in
  let new_height := if new_height <=? 0 then 1 else new_height in
  Returns (target_width, new_height).

(** [(pixel / 255 * (num_chars - 1)).astype(int)] for one pixel, the
    quotient and the product rounded. *)
Definition scale_pixel_fl (num_chars : Z) (pixel : Z) : Z :=
  Py.int (fl (fl (inject_Z pixel / 255) * fl (inject_Z (num_chars - 1)))%Q).

(** [convert_image_to_ascii] with rounded arithmetic. *)
Definition convert_image_to_ascii_fl (fuel : nat) (filepath : file)
           (characters : string) (target_width terminal_max_height : Z)
  : outcome (option ascii_frame) :=
  match filepath with
  | Unreadable => Returns None
  | Readable img =>
      fitted <- aspect_fit_fl fuel img target_width terminal_max_height ;;
      let '(target_width, new_height) := fitted in
      pixel_values <- resize_to_L img target_width new_height ;;
      let num_chars := Z.of_nat (String.length characters) in
      let scaled_pixels := map (map (scale_pixel_fl num_chars)) pixel_values in
      ascii_art <- join_rows characters scaled_pixels ;;
      Returns (Some ascii_art)
  end.

End FloatArithmetic.


Definition aspect_fit_binary64 : nat -> image -> Z -> Z -> outcome (Z * Z) :=
  aspect_fit_fl binary64.


Definition convert_image_to_ascii_binary64
  : nat -> file -> string -> Z -> Z -> outcome (option ascii_frame) :=
  convert_image_to_ascii_fl binary64.



(** A 10 x 10 image, solid white. *)
Definition white_image : image :=
  {| size := (10, 10); pixels := Some (fun _ _ _ _ => xff) |}.

(** * Properties *)

(** ** Truncation *)

Lemma Qnum_sign_neg (x : Q) : Qnum x < 0 <-> (x < 0)%Q.
Proof. destruct x as [n d]; unfold Qlt; simpl; lia. Qed.

Lemma int_of_nonneg (x : Q) : (0 <= x)%Q -> Py.int x = Qfloor x.
Proof.
  intros Hx. unfold Py.int.
  destruct (Z.ltb_spec (Qnum x) 0) as [Hneg | _]; [ | reflexivity ].
  apply Qnum_sign_neg in Hneg. exfalso. exact (Qlt_not_le _ _ Hneg Hx).
Qed.

Lemma int_of_neg (x : Q) : (x < 0)%Q -> Py.int x = Qceiling x.
Proof.
  intros Hx. unfold Py.int. apply Qnum_sign_neg in Hx.
  destruct (Z.ltb_spec (Qnum x) 0); [ reflexivity | lia ].
Qed.

Lemma int_mono (x y : Q) : (x <= y)%Q -> Py.int x <= Py.int y.
Proof.
  intros Hxy.
  destruct (Qlt_le_dec x 0) as [Hx | Hx]; destruct (Qlt_le_dec y 0) as [Hy | Hy].
  - rewrite !int_of_neg by assumption. now apply Qceiling_resp_le.
  - rewrite int_of_neg, int_of_nonneg by assumption.
    apply Z.le_trans with 0.
    + change 0 with (Qceiling 0). apply Qceiling_resp_le. now apply Qlt_le_weak.
    + change 0 with (Qfloor 0). now apply Qfloor_resp_le.
  - exfalso. apply (Qlt_not_le _ _ Hy). now apply Qle_trans with x.
  - rewrite !int_of_nonneg by assumption. now apply Qfloor_resp_le.
Qed.



(** ** The aspect fit *)

Lemma scaled_height_nonpos (ar : Q) (target_width : Z) :
  (0 <= ar)%Q -> target_width <= 0 -> scaled_height ar target_width <= 0.
Proof.
  intros Har Hw. unfold scaled_height.
  change 0 with (Py.int 0). apply int_mono.
  assert (Hq : (inject_Z target_width <= 0)%Q)
    by (unfold Qle; simpl; lia).
  assert (H1 : (ar * inject_Z target_width <= 0)%Q).
  { rewrite <- (Qmult_0_r ar).
    rewrite (Qmult_comm ar (inject_Z target_width)), (Qmult_comm ar 0).
    now apply Qmult_le_compat_r. }
  rewrite <- (Qmult_0_l (1 # 2)).
  apply Qmult_le_compat_r; [ exact H1 | discriminate ].
Qed.

Lemma fit_loop_step (fuel : nat) (ar : Q) (max_h w h : Z) :
  fit_loop fuel ar max_h w h =
  if h >? max_h then
    match fuel with
    | O => OutOfFuel
    | S fuel' => fit_loop fuel' ar max_h (w - 1) (scaled_height ar (w - 1))
    end
  else Returns (w, h).
Proof. destruct fuel; reflexivity. Qed.

(** With a height bound that is not negative the loop leaves at a width
    that is not negative, within [target_width] rounds. *)
Lemma fit_loop_returns (ar : Q) (max_h : Z) :
  (0 <= ar)%Q -> 0 <= max_h ->
  forall (fuel : nat) (w : Z),
    (Z.to_nat w <= fuel)%nat ->
    exists w',
      fit_loop fuel ar max_h w (scaled_height ar w)
      = Returns (w', scaled_height ar w')
      /\ scaled_height ar w' <= max_h
      /\ w' <= w /\ (0 <= w -> 0 <= w').
Proof.
  intros Har Hmax. induction fuel as [ | fuel IH ]; intros w Hfuel;
    rewrite fit_loop_step;
    destruct (Z.gtb_spec (scaled_height ar w) max_h) as [Hgt | Hle].
  - pose proof (scaled_height_nonpos ar w Har). lia.
  - exists w. repeat split; auto with zarith.
  - assert (0 < w)
      by (destruct (Z.lt_ge_cases 0 w) as [ | Hw ]; [ assumption | ];
          pose proof (scaled_height_nonpos ar w Har Hw); lia).
    destruct (IH (w - 1)) as (w' & Hrun & Hfit & Hw' & Hpos); [ lia | ].
    exists w'. repeat split; auto with zarith.
  - exists w. repeat split; auto with zarith.
Qed.

Lemma aspect_ratio_nonneg (original_width original_height : Z) :
  0 < original_width -> 0 <= original_height ->
  (0 <= inject_Z original_height / inject_Z original_width)%Q.
Proof.
  intros Hw Hh. apply Qle_shift_div_l.
  - unfold Qlt; simpl; lia.
  - rewrite Qmult_0_l. unfold Qle; simpl; lia.
Qed.

(** C1: for an image of positive width and height, a positive target width
    and a positive height bound, the aspect fit returns (the loop ends
    within [target_width] rounds) and the height it chooses lies in
    [1, terminal_max_height]; it is the candidate height at the final
    width or 1 where that is not positive. *)
Theorem aspect_fit_height_in_bounds
        (fuel : nat) (img : image) (original_width original_height : Z)
        (target_width terminal_max_height : Z) :
  size img = (original_width, original_height) ->
  0 < original_width -> 0 < original_height ->
  0 < target_width -> 0 < terminal_max_height ->
  (Z.to_nat target_width <= fuel)%nat ->
  exists final_width new_height,
    aspect_fit fuel img target_width terminal_max_height
    = Returns (final_width, new_height)
    /\ 1 <= new_height <= terminal_max_height
    /\ 0 <= final_width <= target_width
    /\ new_height
       = Z.max 1 (scaled_height
                    (inject_Z original_height / inject_Z original_width)
                    final_width).
Proof.
  intros Hsize Hw Hh Htw Hmax Hfuel.
  unfold aspect_fit. rewrite Hsize.
  destruct (Z.eqb_spec original_width 0) as [ | _ ]; [ lia | ].
  set (ar := (inject_Z original_height / inject_Z original_width)%Q).
  assert (Har : (0 <= ar)%Q) by (apply aspect_ratio_nonneg; lia).
  destruct (fit_loop_returns ar terminal_max_height Har ltac:(lia)
                             fuel target_width Hfuel)
    as (w' & Hrun & Hfit & Hle & Hpos).
  rewrite Hrun. cbn [bind].
  exists w'. eexists. split; [ reflexivity | ].
  destruct (Z.leb_spec (scaled_height ar w') 0); lia.
Qed.

Lemma aspect_fit_height_in_bounds_witness :
  exists final_width new_height,
    aspect_fit 10 square_image 10 10 = Returns (final_width, new_height)
    /\ 1 <= new_height <= 10
    /\ 0 <= final_width <= 10
    /\ new_height
       = Z.max 1 (scaled_height (inject_Z 10 / inject_Z 10) final_width).
Proof.
  apply (aspect_fit_height_in_bounds 10 square_image 10 10 10 10);
    [ reflexivity | lia | lia | lia | lia | simpl; lia ].
Defined.

(** ** The ramp index *)

Lemma scale_pixel_floor (num_chars pixel : Z) :
  0 <= pixel -> 1 <= num_chars ->
  scale_pixel num_chars pixel
  = Qfloor (inject_Z pixel / 255 * inject_Z (num_chars - 1)).
Proof.
  intros Hp HN. unfold scale_pixel. apply int_of_nonneg.
  apply Qmult_le_0_compat.
  - apply Qle_shift_div_l; [ reflexivity | ].
    rewrite Qmult_0_l. unfold Qle; simpl; lia.
  - unfold Qle; simpl; lia.
Qed.

Lemma scale_pixel_div (num_chars pixel : Z) :
  0 <= pixel -> 1 <= num_chars ->
  scale_pixel num_chars pixel = pixel * (num_chars - 1) / 255.
Proof.
  intros Hp HN. rewrite scale_pixel_floor by assumption.
  change (pixel * (num_chars - 1) / 255)
    with (Qfloor ((pixel * (num_chars - 1)) # 255)).
  apply Z.le_antisymm; apply Qfloor_resp_le;
    unfold Qle, Qdiv, Qmult, Qinv; simpl; lia.
Qed.



Lemma byte_range (b : byte) : 0 <= Z.of_N (Byte.to_N b) <= 255.
Proof. pose proof (Byte.to_N_bounded b). lia. Qed.

(** ** Indexing the ramp *)





Lemma getitem_empty (i : Z) : Py.getitem EmptyString i = Raises IndexError.
Proof.
  unfold Py.getitem. simpl.
  destruct (i <? 0) eqn:E; rewrite ?Z.add_0_r, ?E; simpl; [ reflexivity | ].
  destruct (0 <=? i) eqn:E'; [ reflexivity | ].
  apply Z.ltb_ge in E. apply Z.leb_gt in E'. lia.
Qed.

(** ** Rows and frames *)

Lemma bind_returns {A B : Type} (m : outcome A) (k : A -> outcome B) (b : B) :
  bind m k = Returns b -> exists a, m = Returns a /\ k a = Returns b.
Proof. destruct m; simpl; intros H; try discriminate; eauto. Qed.

Lemma join_row_length (characters : string) (row : list Z) (line : string) :
  join_row characters row = Returns line ->
  String.length line = List.length row.
Proof.
  revert line. induction row as [ | pixel row IH ]; simpl; intros line H.
  - now injection H as <-.
  - apply bind_returns in H as (c & _ & H).
    apply bind_returns in H as (s & Hs & H).
    injection H as <-. simpl. f_equal. now apply IH.
Qed.

(** Every character of a joined row was looked up in the ramp at one of
    the row's indices. *)
Lemma join_row_chars (characters : string) (row : list Z) (line : string) :
  join_row characters row = Returns line ->
  forall c, In c (list_ascii_of_string line) ->
            exists pixel, In pixel row /\ Py.getitem characters pixel = Returns c.
Proof.
  revert line. induction row as [ | pixel row IH ]; simpl; intros line H c Hc.
  - injection H as <-. destruct Hc.
  - apply bind_returns in H as (c0 & Hc0 & H).
    apply bind_returns in H as (s & Hs & H).
    injection H as <-. destruct Hc as [ <- | Hc ].
    + exists pixel. auto.
    + destruct (IH s Hs c Hc) as (px & Hin & Hget). exists px. auto.
Qed.

Lemma join_rows_rows (characters : string) (rows : list (list Z))
      (frame : ascii_frame) :
  join_rows characters rows = Returns frame ->
  Forall2 (fun row line => join_row characters row = Returns line) rows frame.
Proof.
  revert frame. induction rows as [ | row rows IH ]; simpl; intros frame H.
  - injection H as <-. constructor.
  - apply bind_returns in H as (line & Hline & H).
    apply bind_returns in H as (rest & Hrest & H).
    injection H as <-. constructor; auto.
Qed.

Lemma pixel_values_length (px : sampler) (w h : Z) :
  List.length (pixel_values px w h) = Z.to_nat h.
Proof. unfold pixel_values. now rewrite length_map, length_seq. Qed.

Lemma pixel_values_rows (px : sampler) (w h : Z) (row : list Z) :
  In row (pixel_values px w h) ->
  List.length row = Z.to_nat w /\ Forall (fun p => 0 <= p <= 255) row.
Proof.
  unfold pixel_values. intros H. apply in_map_iff in H as (r & <- & _). split.
  - now rewrite length_map, length_seq.
  - apply Forall_forall. intros p Hp. apply in_map_iff in Hp as (c & <- & _).
    apply byte_range.
Qed.

(** What a successful conversion went through. *)
Lemma convert_returns_frame (fuel : nat) (filepath : file) (characters : string)
      (target_width terminal_max_height : Z) (frame : ascii_frame) :
  convert_image_to_ascii fuel filepath characters
                         target_width terminal_max_height
  = Returns (Some frame) ->
  exists img px w h,
    filepath = Readable img
    /\ pixels img = Some px
    /\ aspect_fit fuel img target_width terminal_max_height = Returns (w, h)
    /\ 1 <= w /\ 1 <= h
    /\ join_rows characters
         (map (map (scale_pixel (Z.of_nat (String.length characters))))
              (pixel_values px w h))
       = Returns frame.
Proof.
  unfold convert_image_to_ascii. destruct filepath as [ | img ]; [ discriminate | ].
  intros H. apply bind_returns in H as ([w h] & Hfit & H).
  apply bind_returns in H as (values & Hvalues & H).
  apply bind_returns in H as (art & Hart & H). injection H as <-.
  unfold resize_to_L in Hvalues.
  destruct (pixels img) as [ px | ] eqn:Hpx; [ | discriminate ].
  destruct (Z.ltb_spec w 1); [ discriminate | ].
  destruct (Z.ltb_spec h 1); [ discriminate | ].
  injection Hvalues as <-. exists img, px, w, h.
  repeat split; assumption || reflexivity.
Qed.

Lemma Forall2_in_r {A B : Type} (R : A -> B -> Prop) (l : list A) (l' : list B) :
  Forall2 R l l' -> forall y, In y l' -> exists x, In x l /\ R x y.
Proof.
  induction 1 as [ | x y l l' HR _ IH ]; intros z Hz; [ destruct Hz | ].
  destruct Hz as [ <- | Hz ].
  - exists x. simpl. auto.
  - destruct (IH z Hz) as (x' & Hin & Hx'). exists x'. simpl. auto.
Qed.

(** Every character of a converted frame is the ramp character at the
    scaled value of one of the image's bytes. *)
Lemma convert_chars (fuel : nat) (filepath : file) (characters : string)
      (target_width terminal_max_height : Z) (frame : ascii_frame) :
  convert_image_to_ascii fuel filepath characters
                         target_width terminal_max_height
  = Returns (Some frame) ->
  exists img px w h,
    filepath = Readable img /\ pixels img = Some px /\
    all_chars (fun c =>
      exists r col,
        Py.getitem characters
          (scale_pixel (Z.of_nat (String.length characters))
                       (Z.of_N (Byte.to_N (px w h r col))))
        = Returns c) frame.
Proof.
  intros H.
  apply convert_returns_frame in H as (img & px & w & h & -> & Hpx & _ & _ & _ & H).
  exists img, px, w, h. split; [ reflexivity | ]. split; [ exact Hpx | ].
  apply join_rows_rows in H. intros line Hline c Hc.
  destruct (Forall2_in_r _ _ _ H line Hline) as (row & Hrow & Hjoin).
  destruct (join_row_chars _ _ _ Hjoin c Hc) as (pixel & Hpixel & Hget).
  apply in_map_iff in Hrow as (bytes & <- & Hbytes).
  apply in_map_iff in Hpixel as (p & <- & Hp).
  unfold pixel_values in Hbytes.
  apply in_map_iff in Hbytes as (r & <- & _).
  apply in_map_iff in Hp as (col & <- & _).
  exists r, col. exact Hget.
Qed.

(** The shape of a converted frame: as many rows as the fitted height, each
    as long as the fitted width, both at least 1. *)
Lemma convert_shape (fuel : nat) (filepath : file) (characters : string)
      (target_width terminal_max_height : Z) (frame : ascii_frame) :
  convert_image_to_ascii fuel filepath characters
                         target_width terminal_max_height
  = Returns (Some frame) ->
  exists w h,
    1 <= w /\ 1 <= h
    /\ List.length frame = Z.to_nat h
    /\ Forall (fun line => String.length line = Z.to_nat w) frame.
Proof.
  intros H.
  apply convert_returns_frame in H as (img & px & w & h & _ & _ & _ & Hw & Hh & H).
  exists w, h. split; [ assumption | ]. split; [ assumption | ].
  apply join_rows_rows in H. split.
  - rewrite <- (Forall2_length H), length_map. apply pixel_values_length.
  - apply Forall_forall. intros line Hline.
    destruct (Forall2_in_r _ _ _ H line Hline) as (row & Hrow & Hjoin).
    rewrite (join_row_length _ _ _ Hjoin).
    apply in_map_iff in Hrow as (bytes & <- & Hbytes).
    rewrite length_map. now apply pixel_values_rows in Hbytes as [ -> _ ].
Qed.

Lemma convert_uniform (fuel : nat) (img : image) (b : byte) (characters : string)
      (target_width terminal_max_height : Z) (frame : ascii_frame) :
  uniform img b ->
  convert_image_to_ascii fuel (Readable img) characters
                         target_width terminal_max_height
  = Returns (Some frame) ->
  all_chars (fun c =>
    Py.getitem characters
      (scale_pixel (Z.of_nat (String.length characters)) (Z.of_N (Byte.to_N b)))
    = Returns c) frame.
Proof.
  intros Hb H. apply convert_chars in H as (img' & px & w & h & [= <-] & Hpx & H).
  intros line Hline c Hc. destruct (H line Hline c Hc) as (r & col & Hget).
  now rewrite (Hb px Hpx) in Hget.
Qed.

Lemma scale_pixel_0 (num_chars : Z) : 1 <= num_chars -> scale_pixel num_chars 0 = 0.
Proof. intros HN. rewrite scale_pixel_div by lia. reflexivity. Qed.

Lemma scale_pixel_255 (num_chars : Z) :
  1 <= num_chars -> scale_pixel num_chars 255 = num_chars - 1.
Proof.
  intros HN. rewrite scale_pixel_div by lia.
  rewrite Z.mul_comm. now apply Z.div_mul.
Qed.


(** C8: a frame the converter produces is a rectangular grid: it has at
    least one row, and every row has the same length, which is at least
    one character. *)
Theorem frame_rectangular (fuel : nat) (filepath : file) (characters : string)
        (target_width terminal_max_height : Z) (frame : ascii_frame) :
  convert_image_to_ascii fuel filepath characters
                         target_width terminal_max_height
  = Returns (Some frame) ->
  (1 <= List.length frame)%nat
  /\ exists width, (1 <= width)%nat
                   /\ Forall (fun line => String.length line = width) frame.
Proof.
  intros H. apply convert_shape in H as (w & h & Hw & Hh & Hrows & Hcols).
  split; [ lia | ]. exists (Z.to_nat w). split; [ lia | exact Hcols ].
Qed.

Lemma frame_rectangular_witness :
  convert_image_to_ascii 4 (Readable square_image) charset 4 2
  = Returns (Some ["@@@@"; "@@@@"]%string)
  /\ (1 <= List.length ["@@@@"; "@@@@"]%string)%nat
  /\ exists width, (1 <= width)%nat
       /\ Forall (fun line => String.length line = width)
                 ["@@@@"; "@@@@"]%string.
Proof.
  split; [ vm_compute; reflexivity | ].
  apply (frame_rectangular 4 (Readable square_image) charset 4 2).
  vm_compute; reflexivity.
Defined.



(** ** The empty ramp *)

Lemma aspect_fit_height_pos (fuel : nat) (img : image) (tw mh w h : Z) :
  aspect_fit fuel img tw mh = Returns (w, h) -> 1 <= h.
Proof.
  unfold aspect_fit. destruct (size img) as [ow oh].
  destruct (ow =? 0); [ discriminate | ].
  intros H. apply bind_returns in H as ([w' h'] & _ & H).
  injection H as _ <-. destruct (Z.leb_spec h' 0); lia.
Qed.

(** With an empty ramp the first lookup of the first row fails. *)
Lemma join_rows_empty_ramp (px : sampler) (w h : Z) :
  1 <= w -> 1 <= h ->
  join_rows EmptyString (map (map (scale_pixel 0)) (pixel_values px w h))
  = Raises IndexError.
Proof.
  intros Hw Hh. unfold pixel_values.
  destruct (Z.to_nat h) as [ | n ] eqn:En; [ lia | ].
  destruct (Z.to_nat w) as [ | m ] eqn:Em; [ lia | ].
  simpl. now rewrite getitem_empty.
Qed.

(** With an empty ramp the converter never gives a frame: a file that does
    not open gives [None]; otherwise the first failure on the way leaves
    the converter as an exception: that of the aspect fit, that of the
    resize ([OSError] for pixel data that does not load, [ValueError] for a
    fitted width below 1), or the [IndexError] of the first character
    lookup. *)
Lemma empty_ramp_outcome (fuel : nat) (filepath : file)
      (target_width terminal_max_height : Z) :
  convert_image_to_ascii fuel filepath EmptyString
                         target_width terminal_max_height
  = match filepath with
    | Unreadable => Returns None
    | Readable img =>
        match aspect_fit fuel img target_width terminal_max_height with
        | Returns (w, _) =>
            match pixels img with
            | None => Raises OSError
            | Some _ => if w <? 1 then Raises ValueError
                        else Raises IndexError
            end
        | Raises e => Raises e
        | OutOfFuel => OutOfFuel
        end
    end.
Proof.
  destruct filepath as [ | img ]; [ reflexivity | ].
  unfold convert_image_to_ascii, resize_to_L.
  destruct (aspect_fit fuel img target_width terminal_max_height)
    as [ [w h] | e | ] eqn:Hfit; cbn [bind]; try reflexivity.
  apply aspect_fit_height_pos in Hfit.
  destruct (pixels img) as [ px | ]; [ | reflexivity ].
  destruct (Z.ltb_spec w 1); [ reflexivity | ].
  destruct (Z.ltb_spec h 1); [ lia | ].
  cbn [orb bind String.length Z.of_nat].
  now rewrite join_rows_empty_ramp by lia.
Qed.

(** C5 at an empty ramp: nothing checks the ramp.  For a frame that loads,
    the lookup [characters[pixel]] of line 62 raises [IndexError], which
    nothing in the converter catches: it is not the [None] that the
    docstring promises on failure, and the build that calls the converter
    is aborted by it.  For a frame whose fitted width has reached 0 the
    converter fails in another way before it looks at the ramp. *)
Theorem empty_ramp_raises :
  convert_image_to_ascii 10 (Readable square_image) EmptyString 10 10
  = Raises IndexError
  /\ convert_image_to_ascii_binary64 10 (Readable square_image) EmptyString
                                     10 10
     = Raises IndexError
  /\ build_cache 10 [Readable square_image; Readable square_image]
                 EmptyString 10 10
     = Raises IndexError
  /\ convert_image_to_ascii 75 (Readable tall_image) EmptyString 75 19
     = Raises ValueError.
Proof. repeat split; vm_compute; reflexivity. Qed.

(** ** The cache build *)

Lemma frame_shape_nonempty (fuel : nat) (filepath : file) (characters : string)
      (w h : Z) (frame : ascii_frame) :
  convert_image_to_ascii fuel filepath characters w h = Returns (Some frame) ->
  (1 <= List.length frame)%nat.
Proof.
  intros H. apply convert_shape in H as (w' & h' & _ & Hh & Hrows & _). lia.
Qed.

Lemma truthy_converted (fuel : nat) (filepath : file) (characters : string)
      (w h : Z) (r : option ascii_frame) :
  convert_image_to_ascii fuel filepath characters w h = Returns r ->
  truthy r = false -> r = None.
Proof.
  destruct r as [ frame | ]; [ | reflexivity ]. intros H Hf.
  apply frame_shape_nonempty in H. destruct frame; [ simpl in H; lia | discriminate ].
Qed.

Lemma build_frames_returns (fuel : nat) (characters : string) (w h : Z)
      (image_paths : list file) (results : list (option ascii_frame)) :
  Forall2 (fun image_path r =>
             convert_image_to_ascii fuel image_path characters w h = Returns r)
          image_paths results ->
  forall all_ascii_frames,
  exists kept,
    build_frames fuel image_paths characters w h all_ascii_frames
    = Returns (all_ascii_frames ++ kept)
    /\ map Some kept = filter truthy results.
Proof.
  induction 1 as [ | image_path r image_paths results Hr _ IH ];
    intros acc; cbn [build_frames].
  - exists []. now rewrite app_nil_r.
  - rewrite Hr. cbn [bind].
    destruct r as [ [ | line frame ] | ]; cbn [truthy filter].
    + apply IH.
    + destruct (IH (acc ++ [line :: frame])) as (kept & Hrun & Hkept).
      exists ((line :: frame) :: kept). split.
      * rewrite <- app_assoc in Hrun. exact Hrun.
      * cbn [map]. now rewrite Hkept.
    + apply IH.
Qed.

Lemma filter_length_split {A : Type} (f : A -> bool) (l : list A) :
  (List.length (filter f l) + List.length (filter (fun x => negb (f x)) l)
   = List.length l)%nat.
Proof.
  induction l as [ | x l IH ]; simpl; [ reflexivity | ].
  destruct (f x); simpl; lia.
Qed.

Lemma filter_nil_all {A : Type} (f : A -> bool) (l : list A) :
  filter f l = [] -> Forall (fun x => f x = false) l.
Proof.
  induction l as [ | x l IH ]; simpl; [ constructor | ].
  destruct (f x) eqn:E; [ discriminate | ]. constructor; auto.
Qed.

(** The build skips the frames whose conversion returns a falsy value
    ([None] for a file that does not open).  When every conversion returns,
    the build returns too, and the cache holds the frames that converted, in
    their order: its length is the number of frames less the failed ones
    (F-1 for one failure), and it is empty only if every conversion
    failed. *)
Theorem build_cache_skips_failed (fuel : nat) (characters : string) (w h : Z)
        (image_paths : list file) (results : list (option ascii_frame)) :
  Forall2 (fun image_path r =>
             convert_image_to_ascii fuel image_path characters w h = Returns r)
          image_paths results ->
  exists cache,
    build_cache fuel image_paths characters w h = Returns cache
    /\ map Some cache = filter truthy results
    /\ (List.length cache
        + List.length (filter (fun r => negb (truthy r)) results)
        = List.length image_paths)%nat
    /\ (List.length (filter (fun r => negb (truthy r)) results) = 1%nat ->
        List.length cache = (List.length image_paths - 1)%nat)
    /\ (cache = [] -> Forall (fun r => r = None) results).
Proof.
  intros Hall.
  destruct (build_frames_returns _ _ _ _ _ _ Hall []) as (cache & Hrun & Hkept).
  exists cache. split; [ exact Hrun | ]. split; [ exact Hkept | ].
  assert (Hlen : (List.length cache
                  + List.length (filter (fun r => negb (truthy r)) results)
                  = List.length image_paths)%nat).
  { rewrite (Forall2_length Hall), <- (filter_length_split truthy results).
    now rewrite <- Hkept, length_map. }
  split; [ exact Hlen | ]. split; [ lia | ].
  intros ->. simpl in Hkept. symmetry in Hkept.
  apply filter_nil_all in Hkept.
  clear Hrun Hlen. induction Hall as [ | p r ps rs Hr _ IH ]; constructor.
  - apply (truthy_converted _ _ _ _ _ _ Hr). now inversion Hkept.
  - apply IH. now inversion Hkept.
Qed.

Lemma build_cache_skips_failed_witness :
  exists cache,
    build_cache 4 [Readable square_image; Unreadable; Readable square_image]
                charset 4 2 = Returns cache
    /\ cache = [["@@@@"; "@@@@"]; ["@@@@"; "@@@@"]]%string
    /\ List.length cache = 2%nat.
Proof.
  destruct (build_cache_skips_failed 4 charset 4 2
              [Readable square_image; Unreadable; Readable square_image]
              [Some ["@@@@"; "@@@@"]%string; None;
               Some ["@@@@"; "@@@@"]%string])
    as (cache & Hrun & Hkept & _ & Hlen & _).
  - repeat constructor.
  - exists cache. split; [ exact Hrun | ].
    vm_compute in Hkept. split; [ | apply Hlen; reflexivity ].
    destruct cache as [ | a [ | b [ | c cache ] ] ]; try discriminate.
    now injection Hkept as -> ->.
Defined.

(** C6 at frames whose conversion fails by raising: the build loop has no
    handler, so the frame is not skipped and the exception leaves the
    build.  A frame whose pixel data does not decode opens, then fails in
    the resize with [OSError]; a frame of positive size whose fitted width
    reaches 0 fails there with [ValueError].  In both builds the other
    frames convert. *)
Theorem build_aborts_on_raising_frame :
  (exists frame,
      convert_image_to_ascii 75 (Readable square_image) charset 75 19
      = Returns (Some frame))
  /\ convert_image_to_ascii 75 (Readable truncated_image) charset 75 19
     = Raises OSError
  /\ build_cache 75 [Readable square_image; Readable truncated_image;
                     Readable square_image] charset 75 19
     = Raises OSError
  /\ convert_image_to_ascii 75 (Readable tall_image) charset 75 19
     = Raises ValueError
  /\ build_cache 75 [Readable square_image; Readable tall_image] charset 75 19
     = Raises ValueError.
Proof.
  split; [ eexists; vm_compute; reflexivity | ].
  repeat split; vm_compute; reflexivity.
Qed.

(** ** The playback loop *)

Section PlaybackProperties.

Variable signals : nat -> option exn.

Lemma for_frames_cons (frame_art : ascii_frame) (rest shown : list ascii_frame) :
  for_frames signals (frame_art :: rest) shown
  = match signals (List.length shown) with
    | Some e => (Abrupt e, shown)
    | None =>
        match signals (S (List.length shown)) with
        | Some e => (Abrupt e, shown ++ [frame_art])
        | None => for_frames signals rest (shown ++ [frame_art])
        end
    end.
Proof.
  cbn [for_frames]. unfold seq_, print_ascii_art, sleep, checkpoint, seq_.
  destruct (signals (List.length shown)); [ reflexivity | ].
  rewrite length_app. cbn [List.length]. rewrite Nat.add_1_r.
  destruct (signals (S (List.length shown))); reflexivity.
Qed.

Lemma for_frames_app (first second shown : list ascii_frame) :
  for_frames signals (first ++ second) shown
  = match for_frames signals first shown with
    | (Normal _, shown') => for_frames signals second shown'
    | (Abrupt e, shown') => (Abrupt e, shown')
    end.
Proof.
  revert shown. induction first as [ | frame_art first IH ]; intros shown.
  - reflexivity.
  - rewrite <- app_comm_cons, !for_frames_cons.
    destruct (signals (List.length shown)); [ reflexivity | ].
    destruct (signals (S (List.length shown))); [ reflexivity | apply IH ].
Qed.

(** The two nested loops show the cache over and over. *)
Lemma for_range_concat (n : nat) (cache shown : list ascii_frame) :
  for_range n (for_frames signals cache) shown
  = for_frames signals (List.concat (repeat cache n)) shown.
Proof.
  revert shown. induction n as [ | n IH ]; intros shown; [ reflexivity | ].
  cbn [for_range repeat List.concat]. rewrite for_frames_app. unfold seq_.
  destruct (for_frames signals cache shown) as [ [ [] | e ] shown' ];
    [ apply IH | reflexivity ].
Qed.

Lemma for_frames_quiet (plan shown : list ascii_frame) :
  (forall n, (n <= List.length plan)%nat ->
             signals (List.length shown + n) = None) ->
  for_frames signals plan shown = (Normal tt, shown ++ plan).
Proof.
  revert shown. induction plan as [ | frame_art plan IH ]; intros shown Hq.
  - now rewrite app_nil_r.
  - rewrite for_frames_cons.
    pose proof (Hq 0%nat ltac:(simpl; lia)) as H0. rewrite Nat.add_0_r in H0.
    pose proof (Hq 1%nat ltac:(simpl; lia)) as H1. rewrite Nat.add_1_r in H1.
    rewrite H0, H1, IH.
    + now rewrite <- app_assoc.
    + intros n Hn. rewrite length_app. cbn [List.length].
      replace (List.length shown + 1 + n)%nat
        with (List.length shown + S n)%nat by lia.
      apply Hq. simpl. lia.
Qed.

Lemma for_frames_interrupted (e : exn) (plan shown : list ascii_frame) (j : nat) :
  (j < List.length plan)%nat ->
  (forall n, (n < j)%nat -> signals (List.length shown + n) = None) ->
  signals (List.length shown + j) = Some e ->
  for_frames signals plan shown = (Abrupt e, shown ++ firstn j plan).
Proof.
  revert shown j. induction plan as [ | frame_art plan IH ];
    intros shown j Hj Hq He; [ simpl in Hj; lia | ].
  rewrite for_frames_cons. destruct j as [ | j ].
  - rewrite Nat.add_0_r in He. rewrite He. now rewrite app_nil_r.
  - pose proof (Hq 0%nat ltac:(lia)) as H0. rewrite Nat.add_0_r in H0.
    rewrite H0. destruct j as [ | j ].
    + rewrite Nat.add_1_r in He. now rewrite He.
    + pose proof (Hq 1%nat ltac:(lia)) as H1. rewrite Nat.add_1_r in H1.
      rewrite H1. rewrite (IH (shown ++ [frame_art]) (S j)).
      * cbn [firstn]. now rewrite <- app_assoc.
      * simpl in Hj. lia.
      * intros n Hn. rewrite length_app. cbn [List.length].
        replace (List.length shown + 1 + n)%nat
          with (List.length shown + S n)%nat by lia.
        apply Hq. lia.
      * rewrite length_app. cbn [List.length].
        replace (List.length shown + 1 + S j)%nat
          with (List.length shown + S (S j))%nat by lia.
        exact He.
Qed.

Lemma length_concat_repeat {A : Type} (l : list A) (n : nat) :
  List.length (List.concat (repeat l n)) = (n * List.length l)%nat.
Proof.
  induction n as [ | n IH ]; [ reflexivity | ].
  cbn [repeat List.concat]. rewrite length_app, IH. simpl. lia.
Qed.

Lemma firstn_concat_repeat {A : Type} (l : list A) (times r k : nat) :
  (r < times)%nat -> (k <= List.length l)%nat ->
  firstn (r * List.length l + k) (List.concat (repeat l times))
  = List.concat (repeat l r) ++ firstn k l.
Proof.
  revert times. induction r as [ | r IH ]; intros times Hr Hk;
    (destruct times as [ | times ]; [ lia | ]); cbn [repeat List.concat].
  - simpl. rewrite firstn_app.
    replace (k - List.length l)%nat with 0%nat by lia.
    now rewrite firstn_O, app_nil_r.
  - replace (S r * List.length l + k)%nat
      with (List.length l + (r * List.length l + k))%nat by (simpl; lia).
    rewrite firstn_app_2, IH by lia. now rewrite app_assoc.
Qed.

Lemma digits_not_quit (user_input digits : string) :
  Py.re_search_digits user_input = Some digits ->
  (user_input =? "q")%string = false.
Proof.
  intros H. destruct (String.eqb_spec user_input "q") as [ -> | ];
    [ discriminate | reflexivity ].
Qed.

End PlaybackProperties.

(** C3: a line whose first run of digits reads k, played over a cache of F
    frames with no exception on the way, makes exactly k * F render calls:
    the cache from its first frame to its last, k times over; the loop is
    then back at the prompt. *)
Theorem playback_renders_each_repeat
        (signals : nat -> option exn) (cache shown : list ascii_frame)
        (raw digits : string) :
  Py.re_search_digits (Py.lower (Py.strip raw)) = Some digits ->
  (forall n, (n <= N.to_nat (Py.int_of_str digits) * List.length cache)%nat ->
             signals (List.length shown + n)%nat = None) ->
  turn signals cache (Line raw) shown
  = (AwaitingInput,
     shown ++ List.concat (repeat cache (N.to_nat (Py.int_of_str digits))))
  /\ List.length
       (List.concat (repeat cache (N.to_nat (Py.int_of_str digits))))
     = (N.to_nat (Py.int_of_str digits) * List.length cache)%nat.
Proof.
  intros Hdigits Hquiet. split; [ | apply length_concat_repeat ].
  unfold turn, try_body.
  rewrite (digits_not_quit _ _ Hdigits).
  unfold parse_repeat. rewrite Hdigits.
  unfold seq_. rewrite for_range_concat, for_frames_quiet; [ reflexivity | ].
  now rewrite length_concat_repeat.
Qed.

Lemma playback_renders_each_repeat_witness :
  Py.re_search_digits (Py.lower (Py.strip "3")) = Some "3"%string
  /\ turn (fun _ => None) two_frames (Line "3") []
     = (AwaitingInput, two_frames ++ two_frames ++ two_frames)
  /\ List.length (two_frames ++ two_frames ++ two_frames) = (3 * 2)%nat.
Proof.
  split; [ reflexivity | ].
  destruct (playback_renders_each_repeat (fun _ => None) two_frames []
              "3" "3" eq_refl (fun _ _ => eq_refl)) as [Hturn Hlen].
  split; [ exact Hturn | exact Hlen ].
Defined.

(** C7: a line that reads "q" once stripped and lowered stops the loop with
    no render call; whatever is typed after it is not read. *)
Theorem quit_stops_without_render
        (signals : nat -> option exn) (cache shown : list ascii_frame)
        (raw : string) (rest : list input_event) :
  Py.lower (Py.strip raw) = "q"%string ->
  turn signals cache (Line raw) shown = (Stopped, shown)
  /\ command_loop signals cache (Line raw :: rest) shown = (Stopped, shown).
Proof.
  intros Hq.
  assert (Hturn : turn signals cache (Line raw) shown = (Stopped, shown))
    by (unfold turn, try_body; rewrite Hq; reflexivity).
  split; [ exact Hturn | ]. cbn [command_loop]. now rewrite Hturn.
Qed.

Lemma quit_stops_without_render_witness :
  Py.lower (Py.strip " Q ") = "q"%string
  /\ turn (fun _ => None) two_frames (Line " Q ") [] = (Stopped, [])
  /\ command_loop (fun _ => None) two_frames [Line " Q "; Line "3"] []
     = (Stopped, []).
Proof.
  split; [ reflexivity | ].
  apply (quit_stops_without_render (fun _ => None) two_frames [] " Q "
                                   [Line "3"]).
  reflexivity.
Defined.

(** C9 at a user interrupt during playback.  Under [asyncio.run] the
    interrupt reaches [main] as [CancelledError] at the [await] of line
    197.  Neither handler of lines 200-205 catches it, so it leaves the
    loop and [main]: no further frame is shown and nothing typed later is
    read, but the loop does not reach its [break]. *)
Theorem interrupt_leaves_main :
  turn (cancelled_after 3) two_frames (Line "5") []
  = (Crashed CancelledError, two_frames ++ [["@@"; "@@"]%string])
  /\ command_loop (cancelled_after 3) two_frames [Line "5"; Line "1"] []
     = (Crashed CancelledError, two_frames ++ [["@@"; "@@"]%string])
  /\ main (cancelled_after 3) 10 9 7
          [Readable square_image; Readable white_image] [Line "5"; Line "1"]
     = Raises CancelledError.
Proof. repeat split; vm_compute; reflexivity. Qed.

(** ** The repeat count *)

Lemma digit_run_all_digits (s : string) : all_digits (Py.digit_run s).
Proof.
  induction s as [ | a s IH ]; simpl; intros c Hc; [ destruct Hc | ].
  destruct (Py.isdigit a) eqn:Ha; [ | destruct Hc ].
  destruct Hc as [ <- | Hc ]; [ exact Ha | now apply IH ].
Qed.

Lemma re_search_digits_all_digits (s digits : string) :
  Py.re_search_digits s = Some digits ->
  all_digits digits /\ digits <> EmptyString.
Proof.
  induction s as [ | a s IH ]; simpl; [ discriminate | ].
  destruct (Py.isdigit a) eqn:Ha; [ | exact IH ].
  intros [= <-]. split; [ | discriminate ].
  intros c [ <- | Hc ]; [ exact Ha | exact (digit_run_all_digits s c Hc) ].
Qed.

Lemma digit_value_zero (c : ascii) :
  Py.isdigit c = true -> ((N_of_ascii c - 48)%N = 0%N <-> c = "0"%char).
Proof.
  destruct c as [ [] [] [] [] [] [] [] [] ]; vm_compute; intros H;
    try discriminate H; split; intros E; try discriminate E; reflexivity.
Qed.

Lemma int_of_digits_from_zero (s : string) (acc : N) :
  all_digits s ->
  (Py.int_of_digits_from acc s = 0%N
   <-> acc = 0%N /\ forall c, In c (list_ascii_of_string s) -> c = "0"%char).
Proof.
  revert acc. induction s as [ | a s IH ]; intros acc Hs;
    cbn [Py.int_of_digits_from list_ascii_of_string].
  - split; [ intros ->; split; [ reflexivity | intros c [] ] | tauto ].
  - assert (Ha : Py.isdigit a = true) by (apply Hs; left; reflexivity).
    assert (Hs' : all_digits s) by (intros c Hc; apply Hs; right; exact Hc).
    rewrite (IH _ Hs'). pose proof (digit_value_zero a Ha) as Hz. split.
    + intros [Hsum Hrest].
      assert (acc = 0%N) by lia.
      assert ((N_of_ascii a - 48)%N = 0%N) by lia.
      split; [ assumption | ]. intros c [ <- | Hc ]; [ tauto | auto ].
    + intros [-> Hall]. split.
      * assert (a = "0"%char) as -> by (apply Hall; left; reflexivity).
        reflexivity.
      * intros c Hc. apply Hall. right. exact Hc.
Qed.

(** C4, as the code has it: the count is never negative, but it can be 0.
    Without a digit the count is 1; with one it is the value of the first
    run of digits, which is 0 exactly when that run is made of zeros, and
    at least 1 otherwise. *)
Theorem parse_repeat_value (user_input : string) :
  (Py.re_search_digits user_input = None -> parse_repeat user_input = 1%N)
  /\ (forall digits,
        Py.re_search_digits user_input = Some digits ->
        parse_repeat user_input = Py.int_of_str digits
        /\ (parse_repeat user_input = 0%N
            <-> forall c, In c (list_ascii_of_string digits) -> c = "0"%char)
        /\ ((1 <= parse_repeat user_input)%N
            <-> exists c, In c (list_ascii_of_string digits) /\ c <> "0"%char))
  /\ (0 <= parse_repeat user_input)%N.
Proof.
  split; [ | split; [ | apply N.le_0_l ] ].
  - unfold parse_repeat. now intros ->.
  - intros digits Hd. unfold parse_repeat. rewrite Hd.
    apply re_search_digits_all_digits in Hd as [Hall _].
    pose proof (int_of_digits_from_zero digits 0 Hall) as Hz.
    fold (Py.int_of_str digits) in Hz.
    split; [ reflexivity | ]. split.
    + rewrite Hz. tauto.
    + split.
      * intros Hpos.
        assert (Hex : Exists (fun c => c <> "0"%char)
                             (list_ascii_of_string digits)).
        { apply neg_Forall_Exists_neg.
          - intros c. destruct (ascii_dec c "0"); auto.
          - intros Hf. rewrite Forall_forall in Hf.
            assert (Py.int_of_str digits = 0%N) by (apply Hz; auto). lia. }
        apply Exists_exists in Hex. exact Hex.
      * intros (c & Hc & Hne).
        destruct (N.eq_dec (Py.int_of_str digits) 0) as [ E | ]; [ | lia ].
        apply Hz in E as [_ E]. now apply E in Hc.
Qed.

(** The line "0" asks for no pass at all. *)
Lemma parse_repeat_zero :
  parse_repeat (Py.lower (Py.strip "0")) = 0%N
  /\ ~ (1 <= parse_repeat (Py.lower (Py.strip "0")))%N
  /\ turn (fun _ => None) two_frames (Line "0") [] = (AwaitingInput, []).
Proof.
  split; [ reflexivity | ]. split; [ vm_compute; intros H; now apply H | reflexivity ].
Qed.

(** * Further properties of the converter *)

Lemma fit_loop_inv (fuel : nat) (ar : Q) (max_h : Z) :
  forall w h w' h',
    fit_loop fuel ar max_h w h = Returns (w', h') ->
    h' <= max_h /\ w' <= w
    /\ ((w' = w /\ h' = h)
        \/ (w' < w /\ max_h < h /\ h' = scaled_height ar w'))
    /\ forall v, w' < v < w -> max_h < scaled_height ar v.
Proof.
  induction fuel as [ | fuel IH ]; intros w h w' h'; rewrite fit_loop_step;
    destruct (Z.gtb_spec h max_h) as [Hgt | Hle]; intros H;
    try discriminate H;
    try (injection H as <- <-;
         split; [ lia | split; [ lia | split;
           [ left; split; reflexivity | intros v Hv; lia ] ] ]).
  apply IH in H as (Hfit & Hw & Hcase & Hskip).
  split; [ exact Hfit | ]. split; [ lia | ]. split.
  - right. destruct Hcase as [ [-> ->] | (? & ? & ->) ]; repeat split; lia.
  - intros v Hv. destruct (Z.eq_dec v (w - 1)) as [ -> | Hne ].
    + destruct Hcase as [ [E _] | (Hlt & Hh & _) ]; [ lia | exact Hh ].
    + apply Hskip. lia.
Qed.

Lemma scaled_height_mono (ar : Q) (v w : Z) :
  (0 <= ar)%Q -> v <= w -> scaled_height ar v <= scaled_height ar w.
Proof.
  intros Har Hvw. unfold scaled_height. apply int_mono.
  apply Qmult_le_compat_r; [ | discriminate ].
  rewrite (Qmult_comm ar (inject_Z v)), (Qmult_comm ar (inject_Z w)).
  apply Qmult_le_compat_r; [ | exact Har ].
  unfold Qle; simpl; lia.
Qed.

Lemma aspect_fit_inv (fuel : nat) (img : image) (tw max_h w h : Z) :
  aspect_fit fuel img tw max_h = Returns (w, h) ->
  exists ow oh,
    size img = (ow, oh) /\ ow <> 0
    /\ h = Z.max 1 (scaled_height (inject_Z oh / inject_Z ow) w)
    /\ scaled_height (inject_Z oh / inject_Z ow) w <= max_h
    /\ w <= tw
    /\ forall v, w < v <= tw ->
                 max_h < scaled_height (inject_Z oh / inject_Z ow) v.
Proof.
  unfold aspect_fit. destruct (size img) as [ow oh].
  destruct (Z.eqb_spec ow 0) as [ | Hne ]; [ discriminate | ].
  intros H. apply bind_returns in H as ([w' h'] & Hloop & H).
  injection H as -> <-.
  apply fit_loop_inv in Hloop as (Hfit & Hw & Hcase & Hskip).
  exists ow, oh. split; [ reflexivity | ]. split; [ exact Hne | ].
  assert (Hh' : h' = scaled_height (inject_Z oh / inject_Z ow) w)
    by (destruct Hcase as [ [-> ->] | (_ & _ & ->) ]; reflexivity).
  split; [ destruct (Z.leb_spec h' 0); lia | ].
  split; [ lia | ]. split; [ exact Hw | ].
  intros v Hv. destruct (Z.eq_dec v tw) as [ -> | ]; [ | apply Hskip; lia ].
  destruct Hcase as [ [E _] | (_ & Hgt & _) ]; [ lia | exact Hgt ].
Qed.

(** X1: the aspect fit stops at the largest width not above the target
    whose scaled height fits under the bound: the height at the returned
    width fits, and the height at every width between it and the target is
    over the bound.  The returned height is that height, or 1 where it is
    not positive. *)
Theorem aspect_fit_largest_width
        (fuel : nat) (img : image) (ow oh tw max_h w h : Z) :
  size img = (ow, oh) ->
  aspect_fit fuel img tw max_h = Returns (w, h) ->
  w <= tw
  /\ scaled_height (inject_Z oh / inject_Z ow) w <= max_h
  /\ (forall v, w < v <= tw ->
                max_h < scaled_height (inject_Z oh / inject_Z ow) v)
  /\ h = Z.max 1 (scaled_height (inject_Z oh / inject_Z ow) w).
Proof.
  intros Hsize H.
  apply aspect_fit_inv in H as (ow' & oh' & Hsize' & _ & Hh & Hfit & Hw & Hskip).
  rewrite Hsize in Hsize'. injection Hsize' as <- <-. auto.
Qed.

Lemma aspect_fit_largest_width_witness :
  aspect_fit 75 square_image 75 19 = Returns (39, 19)
  /\ scaled_height (inject_Z 10 / inject_Z 10) 39 <= 19
  /\ (forall v, 39 < v <= 75 ->
                19 < scaled_height (inject_Z 10 / inject_Z 10) v).
Proof.
  split; [ vm_compute; reflexivity | ].
  destruct (aspect_fit_largest_width 75 square_image 10 10 75 19 39 19)
    as (_ & Hfit & Hskip & _);
    [ reflexivity | vm_compute; reflexivity | ].
  split; [ exact Hfit | exact Hskip ].
Defined.

(** X2: a frame the converter returns never exceeds its box: it has at most
    [max(1, terminal_max_height)] rows, and every row has at most
    [target_width] characters. *)
Theorem frame_fits_box (fuel : nat) (filepath : file) (characters : string)
        (target_width terminal_max_height : Z) (frame : ascii_frame) :
  convert_image_to_ascii fuel filepath characters
                         target_width terminal_max_height
  = Returns (Some frame) ->
  Z.of_nat (List.length frame) <= Z.max 1 terminal_max_height
  /\ Forall (fun line => Z.of_nat (String.length line) <= target_width) frame.
Proof.
  intros H.
  apply convert_returns_frame in H
    as (img & px & w & h & _ & _ & Hfit & Hw & Hh & H).
  apply aspect_fit_inv in Hfit as (ow & oh & _ & _ & Hheight & Hle & Hwidth & _).
  apply join_rows_rows in H. split.
  - rewrite <- (Forall2_length H), length_map, pixel_values_length. lia.
  - apply Forall_forall. intros line Hline.
    destruct (Forall2_in_r _ _ _ H line Hline) as (row & Hrow & Hjoin).
    rewrite (join_row_length _ _ _ Hjoin).
    apply in_map_iff in Hrow as (bytes & <- & Hbytes).
    rewrite length_map. apply pixel_values_rows in Hbytes as [ -> _ ]. lia.
Qed.

Lemma frame_fits_box_witness :
  exists frame,
    convert_image_to_ascii 75 (Readable square_image) charset 75 19
    = Returns (Some frame)
    /\ Z.of_nat (List.length frame) <= Z.max 1 19
    /\ Forall (fun line => Z.of_nat (String.length line) <= 75) frame.
Proof.
  eexists. split; [ vm_compute; reflexivity | ].
  apply (frame_fits_box 75 (Readable square_image) charset 75 19).
  vm_compute; reflexivity.
Defined.













(** * Further properties of the command line *)

Lemma lstrip_decompose (s : string) :
  exists a, s = (a ++ Py.lstrip s)%string /\ all_space a
            /\ head_not Py.isspace (Py.lstrip s).
Proof.
  induction s as [ | c s (a & Hs & Ha & Hhead) ].
  - exists EmptyString. repeat split. intros c [].
  - simpl. destruct (Py.isspace c) eqn:Hc.
    + exists (String c a). split; [ simpl; now rewrite <- Hs | ].
      split; [ | exact Hhead ].
      intros d [ <- | Hd ]; [ exact Hc | now apply Ha ].
    + exists EmptyString. repeat split; [ intros d [] | exact Hc ].
Qed.

Lemma rstrip_decompose (s : string) :
  exists b, s = (Py.rstrip s ++ b)%string /\ all_space b
            /\ last_not Py.isspace (Py.rstrip s)
            /\ (head_not Py.isspace s -> head_not Py.isspace (Py.rstrip s)).
Proof.
  induction s as [ | c s (b & Hs & Hb & Hlast & _) ].
  - exists EmptyString. repeat split; [ intros c [] | ].
    intros [ | ] c H; discriminate H.
  - cbn [Py.rstrip]. destruct (Py.rstrip s) as [ | d t ] eqn:Hr.
    + destruct (Py.isspace c) eqn:Hc.
      * exists (String c b). split; [ simpl in *; now rewrite <- Hs | ].
        split; [ intros x [ <- | Hx ]; [ exact Hc | now apply Hb ] | ].
        split; [ intros [ | ] x H; discriminate H | ].
        simpl. congruence.
      * exists b. split; [ simpl in *; now rewrite <- Hs | ].
        split; [ exact Hb | ]. split; [ | intros _; exact Hc ].
        intros [ | y t ] x H; simpl in H.
        -- now injection H as <-.
        -- injection H as _ H. destruct t; discriminate H.
    + exists b. split; [ simpl in *; now rewrite <- Hs | ].
      split; [ exact Hb | ]. split; [ | simpl; auto ].
      intros [ | y u ] x H; simpl in H; [ discriminate H | ].
      injection H as _ H. exact (Hlast u x H).
Qed.

(** X7: [strip] takes white space off both ends and nothing else: every
    string is white space, then its stripped form, then white space, and
    the stripped form neither begins nor ends with white space. *)
Theorem strip_decompose (s : string) :
  exists a b,
    s = (a ++ Py.strip s ++ b)%string
    /\ all_space a /\ all_space b
    /\ head_not Py.isspace (Py.strip s)
    /\ last_not Py.isspace (Py.strip s).
Proof.
  destruct (lstrip_decompose s) as (a & Hs & Ha & Hhead).
  destruct (rstrip_decompose (Py.lstrip s)) as (b & Ht & Hb & Hlast & Hkeep).
  exists a, b. unfold Py.strip. split; [ now rewrite <- Ht | ]. auto.
Qed.

Lemma re_search_digits_skip (pre s : string) :
  no_digit pre ->
  Py.re_search_digits (pre ++ s) = Py.re_search_digits s.
Proof.
  induction pre as [ | c pre IH ]; intros Hpre; [ reflexivity | ].
  simpl. rewrite (Hpre c) by (left; reflexivity).
  apply IH. intros d Hd. apply Hpre. right. exact Hd.
Qed.

Lemma digit_run_exact (digits post : string) :
  all_digits digits -> head_not Py.isdigit post ->
  Py.digit_run (digits ++ post) = digits.
Proof.
  induction digits as [ | c digits IH ]; intros Hd Hpost.
  - destruct post as [ | c post ]; [ reflexivity | ].
    simpl in *. now rewrite Hpost.
  - simpl. rewrite (Hd c) by (left; reflexivity). f_equal.
    apply IH; [ | exact Hpost ]. intros d Hin. apply Hd. right. exact Hin.
Qed.

(** X8: the count is read from the first run of digits alone: for an input
    made of text without a digit, then a run of digits, then nothing or
    text that begins with another character, the count is the value of that
    run, whatever follows. *)
Theorem parse_repeat_first_run (pre digits post : string) :
  no_digit pre -> all_digits digits -> digits <> EmptyString ->
  head_not Py.isdigit post ->
  Py.re_search_digits (pre ++ digits ++ post) = Some digits
  /\ parse_repeat (pre ++ digits ++ post) = Py.int_of_str digits.
Proof.
  intros Hpre Hd Hne Hpost.
  assert (H : Py.re_search_digits (pre ++ digits ++ post) = Some digits).
  { rewrite re_search_digits_skip by assumption.
    destruct digits as [ | c digits ]; [ contradiction | ].
    simpl. rewrite (Hd c) by (left; reflexivity). do 2 f_equal.
    apply digit_run_exact; [ | exact Hpost ].
    intros d Hin. apply Hd. right. exact Hin. }
  split; [ exact H | ]. unfold parse_repeat. now rewrite H.
Qed.

Lemma parse_repeat_first_run_witness :
  Py.re_search_digits "-12 or 34" = Some "12"%string
  /\ parse_repeat "-12 or 34" = 12%N.
Proof.
  apply (parse_repeat_first_run "-" "12" " or 34").
  - intros c [ <- | [] ]. reflexivity.
  - intros c [ <- | [ <- | [] ] ]; reflexivity.
  - discriminate.
  - reflexivity.
Defined.

Lemma lower_char_digit (c : ascii) :
  Py.isdigit (Py.lower_char c) = Py.isdigit c
  /\ (Py.isdigit c = true -> Py.lower_char c = c).
Proof.
  destruct c as [ [] [] [] [] [] [] [] [] ]; vm_compute; split;
    (reflexivity || intros H; discriminate H || reflexivity).
Qed.

Lemma digit_run_lower (s : string) :
  Py.digit_run (Py.lower s) = Py.digit_run s.
Proof.
  induction s as [ | c s IH ]; [ reflexivity | ]. simpl.
  destruct (lower_char_digit c) as [E Hfix]. rewrite E.
  destruct (Py.isdigit c) eqn:Hc; [ | reflexivity ].
  now rewrite Hfix, IH.
Qed.

(** X9: lowering the line does not change what is read as the count: the
    first run of digits of the lowered line is that of the line. *)
Theorem lower_keeps_count (s : string) :
  Py.re_search_digits (Py.lower s) = Py.re_search_digits s
  /\ parse_repeat (Py.lower s) = parse_repeat s.
Proof.
  assert (H : Py.re_search_digits (Py.lower s) = Py.re_search_digits s).
  { induction s as [ | c s IH ]; [ reflexivity | ]. simpl.
    destruct (lower_char_digit c) as [E Hfix]. rewrite E.
    destruct (Py.isdigit c) eqn:Hc; [ | exact IH ].
    now rewrite Hfix, digit_run_lower. }
  split; [ exact H | ]. unfold parse_repeat. now rewrite H.
Qed.

Lemma int_of_digits_from_app (a b : string) (acc : N) :
  Py.int_of_digits_from acc (a ++ b)
  = Py.int_of_digits_from (Py.int_of_digits_from acc a) b.
Proof.
  revert acc. induction a as [ | c a IH ]; intros acc; [ reflexivity | ].
  simpl. apply IH.
Qed.

Lemma int_of_digits_from_acc (s : string) (acc : N) :
  Py.int_of_digits_from acc s
  = (acc * 10 ^ N.of_nat (String.length s) + Py.int_of_digits_from 0 s)%N.
Proof.
  revert acc. induction s as [ | c s IH ]; intros acc.
  - simpl. lia.
  - cbn [Py.int_of_digits_from String.length].
    rewrite IH, (IH (10 * 0 + _)%N), Nat2N.inj_succ, N.pow_succ_r'. lia.
Qed.

(** X10: the value of a run of digits is positional: the value of the
    digits [a] followed by the digits [b] is the value of [a] times 10 to
    the length of [b], plus the value of [b]; so zeros in front do not
    count. *)
Theorem int_of_str_app (a b : string) :
  all_digits a -> all_digits b ->
  Py.int_of_str (a ++ b)
  = (Py.int_of_str a * 10 ^ N.of_nat (String.length b) + Py.int_of_str b)%N.
Proof.
  intros _ _. unfold Py.int_of_str. rewrite int_of_digits_from_app.
  apply int_of_digits_from_acc.
Qed.

Lemma int_of_str_app_witness :
  Py.int_of_str ("00" ++ "12")
  = (Py.int_of_str "00" * 10 ^ N.of_nat (String.length "12")
     + Py.int_of_str "12")%N
  /\ Py.int_of_str "0012" = 12%N.
Proof.
  split; [ | reflexivity ].
  apply (int_of_str_app "00" "12");
    intros c Hc; simpl in Hc;
    repeat (destruct Hc as [ <- | Hc ]; [ reflexivity | ]); destruct Hc.
Defined.

(** * Further properties of the playback loop *)

Lemma turn_quiet (signals : nat -> option exn) (cache shown : list ascii_frame)
      (raw : string) :
  not_quit raw ->
  (forall n, (n <= List.length (frames_asked cache raw))%nat ->
             signals (List.length shown + n)%nat = None) ->
  turn signals cache (Line raw) shown
  = (AwaitingInput, shown ++ frames_asked cache raw).
Proof.
  intros Hq Hquiet. unfold turn, try_body. rewrite Hq. unfold seq_.
  rewrite for_range_concat, for_frames_quiet; [ reflexivity | exact Hquiet ].
Qed.

(** X11: a line without a digit that is not the quit command (the empty
    line, or "quit") plays the cache once: with no exception on the way,
    each cached frame is shown once, in order, and the loop is back at the
    prompt. *)
Theorem plays_once_without_digits
        (signals : nat -> option exn) (cache shown : list ascii_frame)
        (raw : string) :
  Py.re_search_digits (Py.lower (Py.strip raw)) = None ->
  not_quit raw ->
  (forall n, (n <= List.length cache)%nat ->
             signals (List.length shown + n)%nat = None) ->
  turn signals cache (Line raw) shown = (AwaitingInput, shown ++ cache).
Proof.
  intros Hnone Hq Hquiet.
  assert (E : frames_asked cache raw = cache).
  { unfold frames_asked, parse_repeat. rewrite Hnone. simpl. apply app_nil_r. }
  rewrite turn_quiet; [ now rewrite E | exact Hq | now rewrite E ].
Qed.

Lemma plays_once_without_digits_witness :
  turn quiet two_frames (Line "") [] = (AwaitingInput, two_frames)
  /\ turn quiet two_frames (Line "quit") [] = (AwaitingInput, two_frames).
Proof.
  split.
  - apply (plays_once_without_digits quiet two_frames [] "");
      [ reflexivity | reflexivity | intros; reflexivity ].
  - apply (plays_once_without_digits quiet two_frames [] "quit");
      [ reflexivity | reflexivity | intros; reflexivity ].
Defined.

(** X12: an exception that reaches the loop while it plays, once j frames
    of the playback are shown, ends the playback there: the frames shown
    are the first j of those asked for.  The loop stops for
    [KeyboardInterrupt] and for every [Exception]; any other exception
    leaves [main]. *)
Theorem exception_ends_playback
        (signals : nat -> option exn) (cache shown : list ascii_frame)
        (raw : string) (e : exn) (j : nat) :
  not_quit raw ->
  (j < List.length (frames_asked cache raw))%nat ->
  (forall n, (n < j)%nat -> signals (List.length shown + n)%nat = None) ->
  signals (List.length shown + j)%nat = Some e ->
  turn signals cache (Line raw) shown
  = (if is_Exception e then Stopped
     else match e with
          | KeyboardInterrupt => Stopped
          | _ => Crashed e
          end,
     shown ++ firstn j (frames_asked cache raw)).
Proof.
  intros Hq Hj Hquiet Hsig. unfold frames_asked in *.
  unfold turn, try_body. rewrite Hq. unfold seq_.
  rewrite for_range_concat.
  rewrite (for_frames_interrupted signals e _ shown j Hj Hquiet Hsig).
  destruct e; reflexivity.
Qed.

Lemma exception_ends_playback_witness :
  turn (fun n => if (n =? 3)%nat then Some OSError else None)
       two_frames (Line "2") []
  = (Stopped, two_frames ++ [["@@"; "@@"]%string])
  /\ turn (fun n => if (n =? 3)%nat then Some CancelledError else None)
          two_frames (Line "2") []
     = (Crashed CancelledError, two_frames ++ [["@@"; "@@"]%string]).
Proof.
  split.
  - apply (exception_ends_playback _ two_frames [] "2" OSError 3).
    + reflexivity.
    + vm_compute. lia.
    + intros n Hn. do 3 (destruct n as [ | n ]; [ reflexivity | ]). lia.
    + reflexivity.
  - apply (exception_ends_playback _ two_frames [] "2" CancelledError 3).
    + reflexivity.
    + vm_compute. lia.
    + intros n Hn. do 3 (destruct n as [ | n ]; [ reflexivity | ]). lia.
    + reflexivity.
Defined.

Lemma for_frames_prefix (signals : nat -> option exn)
      (plan shown : list ascii_frame) :
  exists k, snd (for_frames signals plan shown) = shown ++ firstn k plan.
Proof.
  revert shown. induction plan as [ | frame_art plan IH ]; intros shown.
  - exists 0%nat. simpl. now rewrite app_nil_r.
  - rewrite for_frames_cons. destruct (signals (List.length shown)).
    + exists 0%nat. simpl. now rewrite app_nil_r.
    + destruct (signals (S (List.length shown))).
      * exists 1%nat. reflexivity.
      * destruct (IH (shown ++ [frame_art])) as [k Hk].
        exists (S k). rewrite Hk. cbn [firstn]. now rewrite <- app_assoc.
Qed.

Lemma in_firstn {A : Type} (n : nat) (l : list A) (x : A) :
  In x (firstn n l) -> In x l.
Proof.
  intros H. rewrite <- (firstn_skipn n l). apply in_or_app. now left.
Qed.

Lemma in_concat_repeat {A : Type} (l : list A) (n : nat) (x : A) :
  In x (List.concat (repeat l n)) -> In x l.
Proof.
  induction n as [ | n IH ]; simpl; [ tauto | ].
  rewrite in_app_iff. tauto.
Qed.

Lemma turn_extends (signals : nat -> option exn) (cache shown : list ascii_frame)
      (ev : input_event) :
  exists extra,
    snd (turn signals cache ev shown) = shown ++ extra
    /\ Forall (fun frame => In frame cache) extra.
Proof.
  assert (Hnil : exists extra : list ascii_frame,
             shown = shown ++ extra /\ Forall (fun f => In f cache) extra)
    by (exists []; split; [ now rewrite app_nil_r | constructor ]).
  unfold turn, try_body. destruct ev as [raw | e].
  - destruct (Py.lower (Py.strip raw) =? "q")%string; [ exact Hnil | ].
    unfold seq_. rewrite for_range_concat.
    destruct (for_frames_prefix signals
                (List.concat (repeat cache (N.to_nat
                   (parse_repeat (Py.lower (Py.strip raw)))))) shown)
      as [k Hk].
    destruct (for_frames signals _ shown) as [ [ [] | e ] shown' ];
      simpl in Hk; subst shown'.
    + eexists. split; [ reflexivity | ].
      apply Forall_forall. intros f Hf. apply in_firstn in Hf.
      now apply in_concat_repeat in Hf.
    + exists (firstn k (List.concat (repeat cache (N.to_nat
                   (parse_repeat (Py.lower (Py.strip raw))))))).
      split; [ destruct e; reflexivity | ].
      apply Forall_forall. intros f Hf. apply in_firstn in Hf.
      now apply in_concat_repeat in Hf.
  - destruct e; exact Hnil.
Qed.

(** X14: the loop shows cached frames and nothing else, and never takes a
    frame back: whatever is typed and whatever exception arrives, the
    frames shown at the end are those shown before, followed by frames of
    the cache. *)
Theorem loop_shows_cached_frames
        (signals : nat -> option exn) (cache : list ascii_frame)
        (inputs : list input_event) (shown : list ascii_frame) :
  exists extra,
    snd (command_loop signals cache inputs shown) = shown ++ extra
    /\ Forall (fun frame => In frame cache) extra.
Proof.
  revert shown. induction inputs as [ | ev inputs IH ]; intros shown.
  - exists []. split; [ simpl; now rewrite app_nil_r | constructor ].
  - cbn [command_loop].
    destruct (turn_extends signals cache shown ev) as (extra & Hturn & Hin).
    destruct (turn signals cache ev shown) as [ [ | | e ] shown' ];
      simpl in Hturn; subst shown'.
    + destruct (IH (shown ++ extra)) as (more & Hloop & Hmore).
      exists (extra ++ more). rewrite Hloop. split; [ now rewrite app_assoc | ].
      apply Forall_app. auto.
    + exists extra. auto.
    + exists extra. auto.
Qed.

(** X15: a session of lines none of which is the quit command, with no
    exception on the way, shows for each line in turn the frames it asks
    for, and ends at the prompt. *)
Theorem session_shows_each_request
        (cache : list ascii_frame) (raws : list string)
        (shown : list ascii_frame) :
  Forall not_quit raws ->
  command_loop quiet cache (map Line raws) shown
  = (AwaitingInput, shown ++ List.concat (map (frames_asked cache) raws)).
Proof.
  intros Hq. revert shown. induction Hq as [ | raw raws Hraw _ IH ];
    intros shown.
  - simpl. now rewrite app_nil_r.
  - cbn [map command_loop List.concat].
    rewrite turn_quiet by (exact Hraw || reflexivity).
    rewrite IH. now rewrite app_assoc.
Qed.

(** X13: a session ends at the first quit command: with no exception on
    the way, the lines before it are played in turn, each for the frames it
    asks for, the loop stops at the quit command, and whatever is typed
    after it is never read. *)
Theorem session_ends_at_quit
        (cache : list ascii_frame) (raws : list string) (quit : string)
        (rest : list input_event) (shown : list ascii_frame) :
  Forall not_quit raws ->
  Py.lower (Py.strip quit) = "q"%string ->
  command_loop quiet cache (map Line raws ++ Line quit :: rest) shown
  = (Stopped, shown ++ List.concat (map (frames_asked cache) raws)).
Proof.
  intros Hq Hquit. revert shown. induction Hq as [ | raw raws Hraw _ IH ];
    intros shown.
  - cbn [map app command_loop List.concat]. unfold turn, try_body.
    rewrite Hquit. cbn. now rewrite app_nil_r.
  - cbn [map app command_loop List.concat].
    rewrite turn_quiet by (exact Hraw || reflexivity).
    rewrite IH. now rewrite app_assoc.
Qed.

Lemma session_ends_at_quit_witness :
  command_loop quiet two_frames
    [Line "2"; Line ""; Line " Q "; Line "3"; InputRaises EOFError] []
  = (Stopped, two_frames ++ two_frames ++ two_frames).
Proof.
  apply (session_ends_at_quit two_frames ["2"; ""]%string " Q "
                              [Line "3"; InputRaises EOFError] []).
  - repeat constructor.
  - reflexivity.
Defined.

Lemma session_shows_each_request_witness :
  command_loop quiet two_frames [Line "2"; Line ""; Line "0"] []
  = (AwaitingInput, two_frames ++ two_frames ++ two_frames).
Proof.
  apply (session_shows_each_request two_frames ["2"; ""; "0"]%string []).
  repeat constructor.
Defined.

(** * Further properties of [main] *)

Lemma build_frames_unreadable (fuel : nat) (characters : string) (w h : Z)
      (image_paths : list file) (all_ascii_frames : list ascii_frame) :
  Forall (fun image_path => image_path = Unreadable) image_paths ->
  build_frames fuel image_paths characters w h all_ascii_frames
  = Returns all_ascii_frames.
Proof.
  induction 1 as [ | image_path image_paths -> _ IH ]; [ reflexivity | ].
  simpl. exact IH.
Qed.

(** X16: when none of the extracted frame files opens, [main] ends before
    the command loop: every frame is skipped, the cache is empty, nothing
    is shown and no input is read. *)
Theorem main_nothing_to_play
        (signals : nat -> option exn) (fuel : nat) (columns lines : Z)
        (image_paths : list file) (inputs : list input_event) :
  Forall (fun image_path => image_path = Unreadable) image_paths ->
  build_cache fuel image_paths charset (columns - 5) (lines - 5) = Returns []
  /\ main signals fuel columns lines image_paths inputs
     = Returns (Stopped, []).
Proof.
  intros Hall.
  assert (Hbuild : build_cache fuel image_paths charset
                               (columns - 5) (lines - 5) = Returns [])
    by (apply build_frames_unreadable; exact Hall).
  split; [ exact Hbuild | ]. unfold main.
  destruct image_paths; [ reflexivity | ]. now rewrite Hbuild.
Qed.

Lemma main_nothing_to_play_witness :
  main quiet 10 80 24 [Unreadable; Unreadable] [Line "3"]
  = Returns (Stopped, []).
Proof.
  apply (main_nothing_to_play quiet 10 80 24 [Unreadable; Unreadable]
                              [Line "3"]).
  repeat constructor.
Defined.

Lemma convert_no_width (fuel : nat) (img : image) (px : sampler)
      (characters : string) (ow oh tw max_h : Z) :
  size img = (ow, oh) -> pixels img = Some px ->
  0 < ow -> 0 <= oh -> tw <= 0 -> 0 <= max_h ->
  convert_image_to_ascii fuel (Readable img) characters tw max_h
  = Raises ValueError.
Proof.
  intros Hsize Hpx Hw Hh Htw Hmax.
  pose proof (scaled_height_nonpos _ tw (aspect_ratio_nonneg ow oh Hw Hh) Htw)
    as Hsh.
  unfold convert_image_to_ascii, aspect_fit, resize_to_L. rewrite Hsize.
  destruct (Z.eqb_spec ow 0); [ lia | ].
  rewrite fit_loop_step.
  destruct (Z.gtb_spec (scaled_height (inject_Z oh / inject_Z ow) tw) max_h);
    [ lia | ].
  cbn [bind]. rewrite Hpx.
  destruct (Z.ltb_spec tw 1); [ reflexivity | lia ].
Qed.

(** X17: in a terminal of 5 columns or fewer (and 5 lines or more) the
    width left for the art is not positive, and [main] ends with the
    [ValueError] of the resize at the first frame, when that frame loads:
    nothing is shown. *)
Theorem main_narrow_terminal
        (signals : nat -> option exn) (fuel : nat) (columns lines : Z)
        (img : image) (px : sampler) (ow oh : Z)
        (rest : list file) (inputs : list input_event) :
  columns <= 5 -> 5 <= lines ->
  size img = (ow, oh) -> pixels img = Some px -> 0 < ow -> 0 <= oh ->
  main signals fuel columns lines (Readable img :: rest) inputs
  = Raises ValueError.
Proof.
  intros Hc Hl Hsize Hpx Hw Hh. unfold main, build_cache.
  cbn [build_frames].
  rewrite (convert_no_width fuel img px charset ow oh) by (assumption || lia).
  reflexivity.
Qed.

Lemma main_narrow_terminal_witness :
  main quiet 10 5 24 [Readable square_image] [Line ""] = Raises ValueError.
Proof.
  apply (main_narrow_terminal quiet 10 5 24 square_image
                              (fun _ _ _ _ => x00) 10 10 [] [Line ""]);
    try reflexivity; lia.
Defined.

(** * Properties of the frame extraction *)

Lemma keyed_snd (files : list string) (l : list (N * string)) :
  keyed files = Some l ->
  map snd l = files
  /\ Forall (fun kx => frame_number (snd kx) = Some (fst kx)) l.
Proof.
  revert l. induction files as [ | x files IH ]; simpl; intros l H.
  - injection H as <-. split; constructor.
  - destruct (frame_number x) as [ k | ] eqn:Hk; [ | discriminate ].
    destruct (keyed files) as [ l' | ]; [ | discriminate ].
    injection H as <-. destruct (IH l' eq_refl) as [Hsnd Hkeys].
    split; [ simpl; now rewrite Hsnd | constructor; assumption ].
Qed.

Lemma keyed_none (files : list string) :
  keyed files = None <-> exists x, In x files /\ frame_number x = None.
Proof.
  induction files as [ | x files IH ]; simpl.
  - split; [ discriminate | intros (x & [] & _) ].
  - destruct (frame_number x) as [ k | ] eqn:Hk.
    + destruct (keyed files) as [ l | ].
      * split; [ discriminate | ].
        intros (y & [ <- | Hy ] & Hnone); [ congruence | ].
        assert (Some l = None) by (apply IH; eauto). discriminate.
      * split; [ | reflexivity ]. intros _.
        destruct (proj1 IH eq_refl) as (y & Hy & Hnone). eauto.
    + split; [ | reflexivity ]. intros _. exists x. auto.
Qed.

Lemma insert_by_key_perm (kx : N * string) (l : list (N * string)) :
  Permutation (insert_by_key kx l) (kx :: l).
Proof.
  induction l as [ | ky l IH ]; simpl; [ reflexivity | ].
  destruct (fst kx <=? fst ky)%N; [ reflexivity | ].
  rewrite IH. apply perm_swap.
Qed.

Lemma sort_by_key_perm (l : list (N * string)) :
  Permutation (sort_by_key l) l.
Proof.
  induction l as [ | kx l IH ]; simpl; [ reflexivity | ].
  rewrite insert_by_key_perm. now constructor.
Qed.

Lemma insert_by_key_sorted (kx : N * string) (l : list (N * string)) :
  StronglySorted (fun a b => (fst a <= fst b)%N) l ->
  StronglySorted (fun a b => (fst a <= fst b)%N) (insert_by_key kx l).
Proof.
  induction 1 as [ | ky l Hl IH Hky ]; simpl.
  - constructor; constructor.
  - destruct (N.leb_spec (fst kx) (fst ky)) as [Hle | Hgt].
    + constructor; [ constructor; assumption | ].
      constructor; [ exact Hle | ].
      eapply Forall_impl; [ | exact Hky ]. intros b Hb. simpl in *. lia.
    + constructor; [ exact IH | ].
      rewrite (insert_by_key_perm kx l). constructor; [ lia | exact Hky ].
Qed.

Lemma sort_by_key_sorted (l : list (N * string)) :
  StronglySorted (fun a b => (fst a <= fst b)%N) (sort_by_key l).
Proof.
  induction l as [ | kx l IH ]; simpl; [ constructor | ].
  now apply insert_by_key_sorted.
Qed.

Lemma StronglySorted_map_snd (l : list (N * string)) :
  Forall (fun kx => frame_number (snd kx) = Some (fst kx)) l ->
  StronglySorted (fun a b => (fst a <= fst b)%N) l ->
  StronglySorted number_le (map snd l).
Proof.
  intros Hkeys. induction 1 as [ | kx l Hl IH Hkx ]; simpl; [ constructor | ].
  inversion Hkeys as [ | ? ? Hk Hrest ]; subst.
  constructor; [ now apply IH | ].
  apply Forall_map. rewrite Forall_forall in *. intros ky Hin.
  unfold number_le. rewrite Hk, (Hrest ky Hin). now apply Hkx.
Qed.

(** X18: when ffmpeg succeeds and the extraction returns, its result is the
    entries of the directory that begin with the prefix, each joined to the
    directory, rearranged in the order of their frame numbers. *)
Theorem extraction_sorted_by_number
        (listing : list string) (output_dir frame_prefix : string)
        (files : list string) :
  convert_gif_to_image_frames 0 listing output_dir frame_prefix = Some files ->
  Permutation files
    (map (path_join output_dir)
         (filter (fun p => startswith p frame_prefix) listing))
  /\ StronglySorted number_le files.
Proof.
  unfold convert_gif_to_image_frames. cbn [Z.eqb].
  destruct (keyed _) as [ l | ] eqn:Hl; [ | discriminate ].
  intros [= <-]. apply keyed_snd in Hl as [Hsnd Hkeys]. split.
  - rewrite <- Hsnd. apply Permutation_map, sort_by_key_perm.
  - apply StronglySorted_map_snd; [ | apply sort_by_key_sorted ].
    rewrite Forall_forall in *. intros kx Hin. apply Hkeys.
    eapply Permutation_in; [ apply sort_by_key_perm | exact Hin ].
Qed.

Lemma extraction_sorted_by_number_witness :
  convert_gif_to_image_frames 0
    ["frame_0010.png"; "notes.txt"; "frame_0002.png"; "frame_10000.png"]%string
    "temp_gif_frames" "frame"
  = Some ["temp_gif_frames/frame_0002.png"; "temp_gif_frames/frame_0010.png";
          "temp_gif_frames/frame_10000.png"]%string
  /\ StronglySorted number_le
       ["temp_gif_frames/frame_0002.png"; "temp_gif_frames/frame_0010.png";
        "temp_gif_frames/frame_10000.png"]%string.
Proof.
  split; [ vm_compute; reflexivity | ].
  apply (extraction_sorted_by_number
           ["frame_0010.png"; "notes.txt"; "frame_0002.png";
            "frame_10000.png"]%string "temp_gif_frames" "frame").
  vm_compute; reflexivity.
Defined.

(** X19: the extraction fails in its sort exactly when ffmpeg succeeded and
    some entry that begins with the prefix has no digit in its joined path;
    when ffmpeg fails the result is the empty list, whatever the directory
    holds. *)
Theorem extraction_fails_without_number
        (returncode : Z) (listing : list string)
        (output_dir frame_prefix : string) :
  (convert_gif_to_image_frames returncode listing output_dir frame_prefix
   = None
   <-> returncode = 0
       /\ exists p, In p listing /\ startswith p frame_prefix = true
                    /\ Py.re_search_digits (path_join output_dir p) = None)
  /\ (returncode <> 0 ->
      convert_gif_to_image_frames returncode listing output_dir frame_prefix
      = Some []).
Proof.
  unfold convert_gif_to_image_frames.
  destruct (Z.eqb_spec returncode 0) as [ -> | Hne ].
  - split; [ | intros H; now contradiction H ].
    destruct (keyed _) as [ l | ] eqn:Hl; simpl.
    + split; [ discriminate | ]. intros (_ & p & Hin & Hpre & Hnone).
      assert (Hk : keyed (map (path_join output_dir)
                 (filter (fun p => startswith p frame_prefix) listing))
                 = None).
      { apply keyed_none. exists (path_join output_dir p). split.
        - apply in_map, filter_In. auto.
        - unfold frame_number. now rewrite Hnone. }
      congruence.
    + split; [ | reflexivity ]. intros _. split; [ reflexivity | ].
      apply keyed_none in Hl as (x & Hx & Hnone).
      apply in_map_iff in Hx as (p & <- & Hp).
      apply filter_In in Hp as [Hin Hpre].
      exists p. repeat split; try assumption.
      unfold frame_number in Hnone.
      destruct (Py.re_search_digits (path_join output_dir p));
        [ discriminate | reflexivity ].
  - split; [ | reflexivity ]. split; [ discriminate | ].
    intros [E _]. contradiction.
Qed.

Lemma digit_run_app_head (a b : string) :
  head_not Py.isdigit b -> Py.digit_run (a ++ b) = Py.digit_run a.
Proof.
  intros Hb. induction a as [ | c a IH ]; simpl.
  - destruct b as [ | c b ]; [ reflexivity | ]. simpl in *. now rewrite Hb.
  - now rewrite IH.
Qed.

Lemma re_search_digits_app_head (a b : string) :
  head_not Py.isdigit b ->
  Py.re_search_digits (a ++ b)
  = match Py.re_search_digits a with
    | Some digits => Some digits
    | None => Py.re_search_digits b
    end.
Proof.
  intros Hb. induction a as [ | c a IH ]; simpl; [ reflexivity | ].
  destruct (Py.isdigit c); [ | exact IH ].
  now rewrite digit_run_app_head.
Qed.

Lemma ends_with_sep_split (a : string) :
  ends_with_sep a = true -> exists a0, a = (a0 ++ "/")%string.
Proof.
  induction a as [ | c a IH ]; [ discriminate | ].
  destruct a as [ | d a ].
  - simpl. intros H. apply Ascii.eqb_eq in H as ->. now exists EmptyString.
  - intros H. destruct (IH H) as [a0 E]. exists (String c a0).
    simpl. now rewrite <- E.
Qed.

Lemma string_app_assoc (a b c : string) :
  ((a ++ b) ++ c = a ++ b ++ c)%string.
Proof. induction a as [ | x a IH ]; simpl; [ reflexivity | now rewrite IH ]. Qed.

(** The key of a file in a directory whose name has a digit is the number
    in the directory's name. *)
Lemma frame_number_of_directory (output_dir p digits : string) :
  Py.re_search_digits output_dir = Some digits ->
  startswith p "/" = false ->
  frame_number (path_join output_dir p) = Some (Py.int_of_str digits).
Proof.
  intros Hd Hp. unfold frame_number, path_join. rewrite Hp.
  destruct (output_dir =? "")%string eqn:He.
  - apply String.eqb_eq in He. subst. discriminate Hd.
  - cbn [orb]. destruct (ends_with_sep output_dir) eqn:Hs.
    + destruct (ends_with_sep_split _ Hs) as [a0 ->].
      rewrite string_app_assoc.
      rewrite re_search_digits_app_head in Hd |- * by reflexivity.
      destruct (Py.re_search_digits a0); [ | discriminate Hd ].
      now injection Hd as ->.
    + rewrite re_search_digits_app_head by reflexivity. now rewrite Hd.
Qed.

Lemma keyed_constant (k : N) (files : list string) :
  Forall (fun x => frame_number x = Some k) files ->
  keyed files = Some (map (fun x => (k, x)) files).
Proof.
  induction 1 as [ | x files Hx _ IH ]; simpl; [ reflexivity | ].
  now rewrite Hx, IH.
Qed.

Lemma sort_by_key_constant (k : N) (files : list string) :
  sort_by_key (map (fun x => (k, x)) files) = map (fun x => (k, x)) files.
Proof.
  induction files as [ | x files IH ]; [ reflexivity | ]. cbn [map].
  change (sort_by_key ((k, x) :: map (fun x => (k, x)) files))
    with (insert_by_key (k, x) (sort_by_key (map (fun x => (k, x)) files))).
  rewrite IH. destruct files as [ | y files ]; [ reflexivity | ].
  cbn [map insert_by_key fst]. now rewrite N.leb_refl.
Qed.

(** X20: the sort key is searched in the joined path, not in the file name:
    when the name of the output directory has a digit, every file gets the
    number of the directory as its key, and the extraction returns the
    files in the order of the listing, whatever their frame numbers. *)
Theorem extraction_unsorted_in_numbered_directory
        (listing : list string) (output_dir frame_prefix digits : string) :
  Py.re_search_digits output_dir = Some digits ->
  Forall (fun p => startswith p "/" = false) listing ->
  convert_gif_to_image_frames 0 listing output_dir frame_prefix
  = Some (map (path_join output_dir)
              (filter (fun p => startswith p frame_prefix) listing)).
Proof.
  intros Hd Hnames. unfold convert_gif_to_image_frames. cbn [Z.eqb].
  rewrite (keyed_constant (Py.int_of_str digits)).
  - cbn [option_map]. rewrite sort_by_key_constant, map_map. simpl.
    now rewrite map_id.
  - apply Forall_map, Forall_forall. intros p Hp.
    apply filter_In in Hp as [Hin _]. rewrite Forall_forall in Hnames.
    apply frame_number_of_directory; auto.
Qed.

Lemma extraction_unsorted_in_numbered_directory_witness :
  convert_gif_to_image_frames 0
    ["frame_0002.png"; "frame_0001.png"]%string "tmp1" "frame"
  = Some ["tmp1/frame_0002.png"; "tmp1/frame_0001.png"]%string.
Proof.
  apply (extraction_unsorted_in_numbered_directory
           ["frame_0002.png"; "frame_0001.png"]%string "tmp1" "frame" "1").
  - reflexivity.
  - repeat constructor.
Defined.

Lemma no_digit_app (a b : string) :
  no_digit a -> no_digit b -> no_digit (a ++ b).
Proof.
  intros Ha Hb. induction a as [ | c a IH ]; simpl; [ exact Hb | ].
  intros d [ <- | Hd ]; [ apply Ha; left; reflexivity | ].
  apply IH; [ | exact Hd ]. intros e He. apply Ha. right. exact He.
Qed.

(** X21: in a directory whose name has no digit, the key of a file named
    by a prefix without a digit, then a numeral, then an extension, is the
    value of the numeral, however many digits it has; so frame 10000 comes
    after frame 9999. *)
Theorem frame_number_of_name
        (output_dir frame_prefix numeral extension : string) :
  no_digit output_dir -> no_digit frame_prefix ->
  all_digits numeral -> numeral <> EmptyString ->
  head_not Py.isdigit extension ->
  frame_number (path_join output_dir (frame_prefix ++ numeral ++ extension))
  = Some (Py.int_of_str numeral).
Proof.
  intros Hdir Hpre Hnum Hne Hext.
  assert (Hkey : forall pre, no_digit pre ->
            frame_number (pre ++ numeral ++ extension)
            = Some (Py.int_of_str numeral)).
  { intros pre Hp. unfold frame_number.
    rewrite re_search_digits_skip by exact Hp.
    destruct numeral as [ | c numeral ]; [ contradiction | ].
    simpl. rewrite (Hnum c) by (left; reflexivity). cbn [option_map].
    do 2 f_equal. rewrite digit_run_exact; [ reflexivity | | exact Hext ].
    intros d Hd. apply Hnum. right. exact Hd. }
  assert (Hsep : no_digit "/") by (intros c [ <- | [] ]; reflexivity).
  unfold path_join.
  destruct (startswith _ "/"); [ now apply Hkey | ].
  destruct (_ || _).
  - rewrite <- string_app_assoc. apply Hkey. now apply no_digit_app.
  - change (output_dir ++ "/" ++ frame_prefix ++ numeral ++ extension)%string
      with (output_dir ++ ("/" ++ frame_prefix) ++ numeral ++ extension)%string.
    rewrite <- string_app_assoc. apply Hkey.
    apply no_digit_app; [ exact Hdir | ]. now apply (no_digit_app "/").
Qed.

Lemma frame_number_of_name_witness :
  frame_number (path_join "temp_gif_frames" ("frame_" ++ "10000" ++ ".png"))
  = Some 10000%N.
Proof.
  apply (frame_number_of_name "temp_gif_frames" "frame_" "10000" ".png").
  - intros c Hc. simpl in Hc.
    repeat (destruct Hc as [ <- | Hc ]; [ reflexivity | ]). destruct Hc.
  - intros c Hc. simpl in Hc.
    repeat (destruct Hc as [ <- | Hc ]; [ reflexivity | ]). destruct Hc.
  - intros c Hc. simpl in Hc.
    repeat (destruct Hc as [ <- | Hc ]; [ reflexivity | ]). destruct Hc.
  - discriminate.
  - reflexivity.
Defined.

(** * Properties of the renderer's text *)

Lemma string_length_app (a b : string) :
  String.length (a ++ b) = (String.length a + String.length b)%nat.
Proof. induction a as [ | c a IH ]; simpl; [ reflexivity | now rewrite IH ]. Qed.

Lemma spaces_length (n : nat) : String.length (spaces n) = n.
Proof. induction n as [ | n IH ]; simpl; [ reflexivity | now rewrite IH ]. Qed.

Lemma string_app_nil_r (a : string) : (a ++ "")%string = a.
Proof. induction a as [ | c a IH ]; simpl; [ reflexivity | now rewrite IH ]. Qed.

(** The margins of [center] for a line of [len] characters. *)
Lemma center_margins (line : string) (width : nat) :
  exists left right,
    center line width = (spaces left ++ line ++ spaces right)%string
    /\ (left + right = width - String.length line)%nat
    /\ (left <= right + 1)%nat /\ (right <= left + 1)%nat
    /\ forall other, String.length other = String.length line ->
         center other width = (spaces left ++ other ++ spaces right)%string.
Proof.
  unfold center. destruct (Nat.leb_spec width (String.length line)) as [Hle | Hlt].
  - exists 0%nat, 0%nat. simpl. rewrite string_app_nil_r.
    repeat split; try lia.
    intros other Hlen. rewrite Hlen.
    destruct (Nat.leb_spec width (String.length line)); [ | lia ].
    now rewrite string_app_nil_r.
  - set (marg := (width - String.length line)%nat).
    set (left := (marg / 2 + (if Nat.odd marg && Nat.odd width then 1 else 0))%nat).
    assert (Hmarg : (1 <= marg)%nat) by (unfold marg; lia).
    assert (Hleft : (left <= marg /\ left <= (marg - left) + 1
                     /\ marg - left <= left + 1)%nat).
    { unfold left. clearbody marg. clear left.
      destruct (Nat.odd marg) eqn:Hodd.
      - apply Nat.odd_spec in Hodd as [q ->].
        replace ((2 * q + 1) / 2)%nat with q
          by (apply (Nat.div_unique _ 2 q 1); lia).
        destruct (Nat.odd width); cbn [andb]; lia.
      - rewrite <- Nat.negb_even in Hodd. apply Bool.negb_false_iff in Hodd.
        apply Nat.even_spec in Hodd as [q ->].
        replace (2 * q / 2)%nat with q
          by (apply (Nat.div_unique _ 2 q 0); lia).
        cbn [andb]. lia. }
    exists left, (marg - left)%nat. split; [ reflexivity | ].
    repeat split; try lia.
    intros other Hlen. rewrite Hlen.
    destruct (Nat.leb_spec width (String.length line)); [ lia | reflexivity ].
Qed.

Lemma center_length (line : string) (width : nat) :
  String.length (center line width) = Nat.max (String.length line) width.
Proof.
  destruct (center_margins line width)
    as (left & right & E & Hsum & Hl & Hr & _).
  rewrite E, !string_length_app, !spaces_length. lia.
Qed.

(** X22: [center] pads a line with spaces on both sides up to the width
    and leaves a line that is already as long alone: the result has
    [max(len, width)] characters, the line sits between the two margins,
    and the margins differ by one space at most. *)
Theorem center_spec (line : string) (width : nat) :
  String.length (center line width) = Nat.max (String.length line) width
  /\ exists left right,
       center line width = (spaces left ++ line ++ spaces right)%string
       /\ (left + right = width - String.length line)%nat
       /\ (left <= right + 1)%nat /\ (right <= left + 1)%nat.
Proof.
  split; [ apply center_length | ].
  destruct (center_margins line width)
    as (left & right & E & Hsum & Hl & Hr & _).
  exists left, right. auto.
Qed.

(** X23: centring keeps a rectangular frame rectangular and its columns
    aligned: when every row has the same length, every row gets the same
    two margins, and every line of the text has [max(length, width)]
    characters. *)
Theorem centred_frame_aligned
        (art_lines : ascii_frame) (len terminal_width : nat) :
  Forall (fun line => String.length line = len) art_lines ->
  exists left right,
    gen_art art_lines true terminal_width
    = String.concat (String "010" EmptyString)
        (map (fun line => (spaces left ++ line ++ spaces right)%string)
             art_lines)
    /\ (left + right = terminal_width - len)%nat
    /\ Forall (fun line =>
                 String.length (center line terminal_width)
                 = Nat.max len terminal_width) art_lines.
Proof.
  intros Hrect. destruct art_lines as [ | first rest ].
  - exists 0%nat, (terminal_width - len)%nat. repeat split; constructor.
  - inversion Hrect as [ | ? ? Hfirst Hrest ]; subst.
    destruct (center_margins first terminal_width)
      as (left & right & _ & Hsum & _ & _ & Hsame).
    exists left, right. split; [ | split; [ exact Hsum | ] ].
    + unfold gen_art. f_equal. apply map_ext_in.
      intros line Hin. apply Hsame.
      rewrite Forall_forall in Hrect. now apply Hrect.
    + apply Forall_forall. intros line Hin.
      rewrite Forall_forall in Hrect.
      rewrite center_length.
      now rewrite (Hrect line Hin).
Qed.

Lemma centred_frame_aligned_witness :
  gen_art ["@@"; "  "]%string true 7
  = String.concat (String "010" EmptyString) ["   @@  "; "       "]%string
  /\ exists left right,
       gen_art ["@@"; "  "]%string true 7
       = String.concat (String "010" EmptyString)
           (map (fun line => (spaces left ++ line ++ spaces right)%string)
                ["@@"; "  "]%string)
       /\ (left + right = 7 - 2)%nat
       /\ Forall (fun line => String.length (center line 7) = Nat.max 2 7)
                 ["@@"; "  "]%string.
Proof.
  split; [ vm_compute; reflexivity | ].
  apply (centred_frame_aligned ["@@"; "  "]%string 2 7).
  repeat constructor.
Defined.

(** * Binary64 *)













(** ** The converter with rounded arithmetic *)

Section RoundedConverter.

Variable fl : Q -> Q.

(** The rounding does not cross an integer of at most 52 bits. *)
Hypothesis fl_bounds :
  forall (x : Q) (k : Z),
    0 <= k <= 2 ^ 52 ->
    ((x <= inject_Z k)%Q -> (fl x <= inject_Z k)%Q)
    /\ ((inject_Z k <= x)%Q -> (inject_Z k <= fl x)%Q).











(** The relative error of one rounding is at most [2 ^ -53]. *)
Hypothesis fl_error :
  forall x : Q,
    (0 <= x)%Q ->
    (x * (1 - (1 # 9007199254740992)) <= fl x
     <= x * (1 + (1 # 9007199254740992)))%Q.











End RoundedConverter.

(** ** The ramp index as the source computes it *)






